(** * load_sio: reading windows of samples from SIO sensor files

    A shallow embedding of [load_sio.py]: the header parser
    ([load_header]), the memory map over the records ([createSIOMap]) and
    the windowed reader ([loadFromMap], [load_selection],
    [load_allChannels]), followed by the properties of the reader.

    Conventions of the embedding.
    - A file is the list of its bytes; the file system is a partial map
      from paths to files, only ever read.
    - Header integers are 32-bit two's complement numbers held in [Z].
    - A sample is kept as its raw bytes (2 for [<i2], 4 for [<f4]); the
      record datatype says how they are to be read, and no claim depends
      on the decoded value.
    - Python exceptions are values of [error]; every function that can
      raise returns a [result].
    - [np.int] is Python's [int]: the module is written for the versions of
      numpy that have it, and the library calls are read as those versions
      behave.
    - The dictionary [fileInfo] has a fixed set of keys and is modelled as
      a record; the key ['data'], added by the reader, is an optional
      field. *)

From Stdlib Require Import String.
From Stdlib Require Import ZArith List Lia Bool Arith.
From Stdlib.Strings Require Import Byte.
Import ListNotations.
Open Scope Z_scope.

Set Implicit Arguments.

(** ** Exceptions *)

Inductive error : Type :=
| NameError (msg : string)
| ValueError (msg : string)
| IndexError (msg : string)
| OverflowError (msg : string)
| ZeroDivisionError (msg : string)
| FileNotFoundError (path : string).

Inductive result (A : Type) : Type :=
| Ok (a : A)
| Err (e : error).

Arguments Ok {A} a.
Arguments Err {A} e.

Definition bind {A B : Type} (r : result A) (k : A -> result B) : result B :=
  match r with
  | Ok a => k a
  | Err e => Err e
  end.

Notation "x <- r ;; k" := (bind r (fun x => k))
  (at level 61, r at next level, right associativity).
Notation "' p <- r ;; k" := (bind r (fun x => let 'p := x in k))
  (at level 61, p pattern, r at next level, right associativity).

(** The four messages the module raises by name. *)
Definition msg_bounds : string := "Index range exceeds file bounds".
Definition msg_channels : string := "Requested channels that do not exist".
Definition msg_byte_order : string := "Unknown byte order".
Definition msg_data_type : string := "unknown data type".

(** ** Bytes and 32-bit integers *)

Definition byte_val (b : byte) : Z := Z.of_N (Byte.to_N b).

Definition byte_of_Z (z : Z) : byte :=
  match Byte.of_N (Z.to_N (z mod 256)) with
  | Some b => b
  | None => x00
  end.

(** Unsigned value of a little-endian byte string. *)
Fixpoint le_unsigned (bs : list byte) : Z :=
  match bs with
  | [] => 0
  | b :: rest => byte_val b + 256 * le_unsigned rest
  end.

Definition to_signed32 (u : Z) : Z :=
  if u <? 2 ^ 31 then u else u - 2 ^ 32.

(** [<i4]: four bytes, least significant first, two's complement. *)
Definition le_i4 (bs : list byte) : Z := to_signed32 (le_unsigned bs).

(** The four bytes of a 32-bit integer as they lie in memory. *)
Definition i4_bytes (x : Z) : list byte :=
  let u := x mod 2 ^ 32 in
  [ byte_of_Z u; byte_of_Z (Z.shiftr u 8);
    byte_of_Z (Z.shiftr u 16); byte_of_Z (Z.shiftr u 24) ].

(** numpy's [byteswap] on an [int32]: the same four bytes in reverse. *)
Definition byteswap (x : Z) : Z := le_i4 (rev (i4_bytes x)).

(** Python slicing [l[start:stop]] (step 1): a negative index counts from
    the end, and both ends are clipped to the length. *)
Definition clip_index (i len : Z) : Z :=
  if i <? 0 then Z.max 0 (i + len) else Z.min i len.

Definition slice_bounds (start stop : Z) (len : nat) : nat * nat :=
  let lo := clip_index start (Z.of_nat len) in
  let hi := clip_index stop (Z.of_nat len) in
  (Z.to_nat lo, Z.to_nat (hi - lo)).

Definition py_slice {A : Type} (start stop : Z) (l : list A) : list A :=
  let '(lo, n) := slice_bounds start stop (length l) in
  firstn n (skipn lo l).

(** [range(n)] as a list of integers; empty when [n <= 0]. *)
Definition py_range (n : Z) : list Z := map Z.of_nat (seq 0 (Z.to_nat n)).

(** [np.int(a / b)] on two integers: true division in floating point, then
    truncation towards zero.  A zero divisor yields [inf] or [nan], which
    [np.int] refuses.  (For 32-bit operands the rounded quotient never
    reaches the next integer, so the result is the truncated quotient.) *)
Definition np_int_div (a b : Z) : result Z :=
  if b =? 0 then
    if a =? 0 then Err (ValueError "cannot convert float NaN to integer")
    else Err (OverflowError "cannot convert float infinity to integer")
  else Ok (Z.quot a b).

(** ** Data model *)

Inductive scalar_kind : Type := Float32 | Int16.

Definition kind_size (k : scalar_kind) : nat :=
  match k with Float32 => 4%nat | Int16 => 2%nat end.

(** A scalar datatype such as [<f4] or [>i2]: a kind and a byte order. *)
Record scalar_dtype : Type := {
  kind : scalar_kind;
  bigEndian : bool
}.

(** [np.dtype('<f4')] and [np.dtype('<i2')] *)
Definition f4_le : scalar_dtype := {| kind := Float32; bigEndian := false |}.
Definition i2_le : scalar_dtype := {| kind := Int16; bigEndian := false |}.

(** [dataType.newbyteorder()]: the same kind in the other byte order. *)
Definition newbyteorder (d : scalar_dtype) : scalar_dtype :=
  {| kind := kind d; bigEndian := negb (bigEndian d) |}.

(** A record datatype [np.dtype((dataType, n))]: [n] scalars in a row. *)
Record dtype : Type := {
  base : scalar_dtype;
  subCount : nat
}.

Definition scalar_size (d : dtype) : nat := kind_size (kind (base d)).

Definition itemsize (d : dtype) : nat := (subCount d * scalar_size d)%nat.

(** A sample: the bytes of one scalar. *)
Abbreviation sample := (list byte) (only parsing).

(** An n-dimensional array: its shape and its elements in row-major order. *)
Record ndarray : Type := {
  shape : list nat;
  elems : list sample
}.

(** Channel labels: the caller's strings, or [np.arange(numChannels)]. *)
Inductive channel_names : Type :=
| UserNames (names : list string)
| IndexNames (idx : list Z).

(** The dictionary [fileInfo].  Its keys are fixed by [load_header]; ['data']
    is the one key added later, absent until [loadFromMap] stores it. *)
Record FileInfo : Type := {
  fid : Z;
  numRecords : Z;
  recordLength : Z;
  numChannels : Z;
  bytesPerPoint : Z;
  isReal : Z;
  samplesPerChannel : Z;
  endianCheck : Z;
  fileName : string;
  readName : list byte;
  comment : list byte;
  channelName : channel_names;
  recordType : dtype;
  data : option ndarray
}.

(** [fileContents['data'] = d] *)
Definition set_data (fi : FileInfo) (d : ndarray) : FileInfo :=
  {| fid := fid fi; numRecords := numRecords fi; recordLength := recordLength fi;
     numChannels := numChannels fi; bytesPerPoint := bytesPerPoint fi;
     isReal := isReal fi; samplesPerChannel := samplesPerChannel fi;
     endianCheck := endianCheck fi; fileName := fileName fi;
     readName := readName fi; comment := comment fi;
     channelName := channelName fi; recordType := recordType fi;
     data := Some d |}.

(** The file system: path to contents. *)
Definition filesystem : Type := string -> option (list byte).

Definition open_file (fs : filesystem) (path : string) : result (list byte) :=
  match fs path with
  | Some bytes => Ok bytes
  | None => Err (FileNotFoundError path)
  end.

(** ** Header parser *)

(** Cut a byte string into consecutive groups of [size] bytes, [count] of
    them. *)
Fixpoint chunks (size count : nat) (bs : list byte) : list (list byte) :=
  match count with
  | O => []
  | S c => firstn size bs :: chunks size c (skipn size bs)
  end.

(** [np.fromfile(f, dtype(('<i4', 8)), 1).flatten()]: the eight header
    integers, or an empty array when the file holds fewer than 32 bytes. *)
Definition read_header_ints (file : list byte) : list Z :=
  if (length file <? 32)%nat then []
  else map le_i4 (chunks 4 8 file).

(** The byte-order test on the check value [header[-1]]: [false] for a
    little-endian file, [true] for a big-endian one. *)
Definition detect_big_endian (check : Z) : result bool :=
  if negb (check =? 32677) then
    if byteswap check =? 32677 then Ok true
    else Err (NameError msg_byte_order)
  else Ok false.

(** The scalar type selected by [bytesPerPoint]. *)
Definition data_type_of (bpp : Z) : result scalar_dtype :=
  if bpp =? 4 then Ok f4_le
  else if bpp =? 2 then Ok i2_le
  else Err (NameError msg_data_type).

Definition default_names (channelNames : option (list string)) (nchan : Z)
  : channel_names :=
  match channelNames with
  | None => IndexNames (py_range nchan)
  | Some names => UserNames names
  end.

Definition load_header (fs : filesystem) (fileName : string)
    (channelNames : option (list string)) : result FileInfo :=
  file <- open_file fs fileName ;;
  let header := read_header_ints file in
  let name := firstn 24 (skipn 32 file) in
  let com := firstn 72 (skipn 56 file) in
  match rev header with
  | [] => Err (IndexError "index -1 is out of bounds for axis 0 with size 0")
  | check :: _ =>
    isBigEndian <- detect_big_endian check ;;
    let header := if (isBigEndian : bool) then map byteswap header else header in
    let field (i : nat) := nth i header 0 in
    let bpp := field 4%nat in
    dataType <- data_type_of bpp ;;
    let dataType := if (isBigEndian : bool) then newbyteorder dataType else dataType in
    (* np.dtype((dataType, np.int(recordLength / bytesPerPoint))) *)
    let samPerRec := Z.quot (field 2%nat) bpp in
    if samPerRec <? 0 then
      Err (ValueError "invalid shape in fixed-type tuple: dimension smaller then zero.")
    else
      Ok {| fid := field 0%nat;
            numRecords := field 1%nat;
            recordLength := field 2%nat;
            numChannels := field 3%nat;
            bytesPerPoint := bpp;
            isReal := field 5%nat;
            samplesPerChannel := field 6%nat;
            endianCheck := field 7%nat;
            fileName := fileName;
            readName := name;
            comment := com;
            channelName := default_names channelNames (field 3%nat);
            recordType := {| base := dataType;
                             subCount := Z.to_nat samPerRec |};
            data := None |}
  end.

(** ** Memory map *)

(** An [np.memmap] over a file: the mapped bytes, the record datatype and the
    shape [(mm_records, mm_channels)] in records.  With a record datatype of
    [n] scalars the array has three axes, [record, channel, sample], laid out
    in C order from byte [mm_offset] on. *)
Record memmap : Type := {
  mm_file : list byte;
  mm_dtype : dtype;
  mm_offset : nat;
  mm_records : nat;
  mm_channels : nat
}.

Definition mm_samples (m : memmap) : nat := subCount (mm_dtype m).

(** Byte position of element [t, c, s]. *)
Definition mm_position (m : memmap) (t c s : nat) : nat :=
  (mm_offset m
   + ((t * mm_channels m + c) * mm_samples m + s) * scalar_size (mm_dtype m))%nat.

(** [sioMap[t, c, s]] *)
Definition mm_sample (m : memmap) (t c s : nat) : sample :=
  firstn (scalar_size (mm_dtype m)) (skipn (mm_position m t c s) (mm_file m)).

(** [sioMap[t, c, :]] *)
Definition mm_record (m : memmap) (t c : nat) : list sample :=
  map (mm_sample m t c) (seq 0 (mm_samples m)).

Definition createSIOMap (fs : filesystem) (fileInfo : FileInfo) : result memmap :=
  let fileName := fileName fileInfo in
  recPerChan <- np_int_div (numRecords fileInfo) (numChannels fileInfo) ;;
  samPerRec <- np_int_div (recordLength fileInfo) (bytesPerPoint fileInfo) ;;
  file <- open_file fs fileName ;;
  let offset := itemsize (recordType fileInfo) in
  if (recPerChan <? 0) || (numChannels fileInfo <? 0) then
    Err (ValueError "negative dimensions are not allowed")
  else
    let size := (Z.to_nat recPerChan * Z.to_nat (numChannels fileInfo))%nat in
    let bytes := (offset + size * itemsize (recordType fileInfo))%nat in
    if (length file =? 0)%nat then
      Err (ValueError "cannot mmap an empty file")
    else if (length file <? bytes)%nat then
      Err (ValueError "mmap length is greater than file size")
    else
      Ok {| mm_file := file;
            mm_dtype := recordType fileInfo;
            mm_offset := offset;
            mm_records := Z.to_nat recPerChan;
            mm_channels := Z.to_nat (numChannels fileInfo) |}.

(** ** Windowed reader *)

(** The [channels] argument: one integer or a list of integers. *)
Inductive channel_sel : Type :=
| ChanInt (c : Z)
| ChanList (l : list Z).

Definition sel_values (channels : channel_sel) : list Z :=
  match channels with
  | ChanInt c => [c]
  | ChanList l => l
  end.

(** [np.any(np.less(channels, 0))] and [np.any(channels >= n)] *)
Definition any_negative (channels : channel_sel) : bool :=
  existsb (fun c => c <? 0) (sel_values channels).

Definition any_at_least (channels : channel_sel) (n : Z) : bool :=
  existsb (fun c => c >=? n) (sel_values channels).

(** What ends up indexing the channel axis: a 0-d array, a 1-d array, or
    [range(n)]. *)
Inductive channel_index : Type :=
| IndexScalar (c : Z)
| IndexArray (l : list Z)
| IndexRange (n : Z).

Definition resolve_channels (fileInfo : FileInfo) (channels : channel_sel)
  : result channel_index :=
  if any_negative channels then Ok (IndexRange (numChannels fileInfo))
  else if any_at_least channels (numChannels fileInfo) then
    Err (NameError msg_channels)
  else
    Ok (match channels with
        | ChanInt c => IndexScalar c
        | ChanList l => IndexArray l
        end).

(** The record range and the offsets inside it:
    [(recStartI, recEndI, startOffsetI, endOffsetI)]. *)
Definition time_indices (fileInfo : FileInfo) (recPerChan samPerRec : Z)
    (sampleStart numSamples : Z) : result (Z * Z * Z * Z) :=
  if sampleStart <? 0 then Ok (0, recPerChan, 0, 0)
  else if sampleStart + numSamples >? samplesPerChannel fileInfo then
    Err (NameError msg_bounds)
  else if samPerRec =? 0 then
    Err (ZeroDivisionError "integer division or modulo by zero")
  else
    Ok (sampleStart / samPerRec,
        Z.quot (sampleStart + numSamples) samPerRec + 1,
        sampleStart mod samPerRec,
        sampleStart mod samPerRec + numSamples).

(** A two-dimensional array with its shape kept beside the rows, so that an
    axis of length zero does not lose the length of the other one. *)
Record matrix : Type := {
  nrows : nat;
  ncols : nat;
  cells : list (list sample)
}.

(** The result of [np.array(sioMap[a:b, channels, :], ndmin=2)]: two axes
    [record, sample] for a single channel number, three axes
    [record, channel, sample] otherwise. *)
Inductive selection : Type :=
| Sel2 (recs : list (list sample))
| Sel3 (recs : list (list (list sample))).

(** A position on the channel axis of the map; the entries are never
    negative here. *)
Definition channel_position (m : memmap) (c : Z) : result nat :=
  if (0 <=? c) && (c <? Z.of_nat (mm_channels m)) then Ok (Z.to_nat c)
  else Err (IndexError "index is out of bounds for axis 1").

Fixpoint mapM {A B : Type} (f : A -> result B) (l : list A) : result (list B) :=
  match l with
  | [] => Ok []
  | a :: rest => b <- f a ;; bs <- mapM f rest ;; Ok (b :: bs)
  end.

(** [sioMap[recStartI:recEndI, channels, :]].  In the versions of numpy that
    have [np.int], [np.dtype((t, 1))] is [t] itself and not an array of one
    scalar: with one sample per record the map has two axes only, and an
    expression with three indices is refused. *)
Definition select (m : memmap) (recStartI recEndI : Z) (channels : channel_index)
  : result selection :=
  let ts := py_slice recStartI recEndI (seq 0 (mm_records m)) in
  if (mm_samples m =? 1)%nat then Err (IndexError "too many indices for array")
  else
  match channels with
  | IndexScalar c =>
      c' <- channel_position m c ;;
      Ok (Sel2 (map (fun t => mm_record m t c') ts))
  | IndexArray [] =>
      (* np.array([]) is an array of floats *)
      Err (IndexError "arrays used as indices must be of integer (or boolean) type")
  | IndexArray l =>
      cs <- mapM (channel_position m) l ;;
      Ok (Sel3 (map (fun t => map (mm_record m t) cs) ts))
  | IndexRange n =>
      cs <- mapM (channel_position m) (py_range n) ;;
      Ok (Sel3 (map (fun t => map (mm_record m t) cs) ts))
  end.

(** Row-wise append of two arrays with the same number of rows. *)
Fixpoint zip_app {A : Type} (xs ys : list (list A)) : list (list A) :=
  match xs, ys with
  | x :: xs', y :: ys' => (x ++ y) :: zip_app xs' ys'
  | _, _ => []
  end.

(** [np.concatenate(arrs, 1)] on a non-empty sequence of 2-d arrays. *)
Fixpoint concatenate_axis1 {A : Type} (first : list (list A))
    (rest : list (list (list A))) : list (list A) :=
  match rest with
  | [] => first
  | a :: rest' => zip_app first (concatenate_axis1 a rest')
  end.

Definition no_arrays : error := ValueError "need at least one array to concatenate".

(** Lines 56 to 62: the record axis is folded into the sample axis, and the
    result is made two-dimensional, [channel, time]. *)
Definition concatenate (m : memmap) (sel : selection) : result matrix :=
  match sel with
  | Sel3 [] => Err no_arrays
  | Sel3 (a :: rest) =>
      Ok {| nrows := length a;
            ncols := (length (a :: rest) * mm_samples m)%nat;
            cells := concatenate_axis1 a rest |}
  | Sel2 [] => Err no_arrays
  | Sel2 recs =>
      Ok {| nrows := 1;
            ncols := (length recs * mm_samples m)%nat;
            cells := [concat recs] |}
  end.

(** [data[:, start:stop]] *)
Definition slice_columns (start stop : Z) (d : matrix) : matrix :=
  {| nrows := nrows d;
     ncols := snd (slice_bounds start stop (ncols d));
     cells := map (py_slice start stop) (cells d) |}.

(** [data.T] *)
Definition transpose (d : matrix) : matrix :=
  {| nrows := ncols d;
     ncols := nrows d;
     cells := map (fun j => map (fun row => nth j row []) (cells d))
                  (seq 0 (ncols d)) |}.

(** [np.squeeze(data)]: the axes of length one are dropped; the elements stay
    as they are. *)
Definition squeezed (dims : list nat) : list nat :=
  filter (fun n => negb (n =? 1)%nat) dims.

Definition squeeze (d : matrix) : ndarray :=
  {| shape := squeezed [nrows d; ncols d];
     elems := concat (cells d) |}.

Definition loadFromMap (sioMap : memmap) (fileInfo : FileInfo)
    (sampleStart numSamples : Z) (channels : channel_sel) : result FileInfo :=
  recPerChan <- np_int_div (numRecords fileInfo) (numChannels fileInfo) ;;
  samPerRec <- np_int_div (recordLength fileInfo) (bytesPerPoint fileInfo) ;;
  (* Create the time load indices *)
  ' (recStartI, recEndI, startOffsetI, endOffsetI) <-
      time_indices fileInfo recPerChan samPerRec sampleStart numSamples ;;
  (* Create the channel load indices *)
  channels <- resolve_channels fileInfo channels ;;
  sel <- select sioMap recStartI recEndI channels ;;
  data <- concatenate sioMap sel ;;
  (* Remove any offset less than a block length *)
  let data :=
    if negb (endOffsetI =? 0) then slice_columns startOffsetI endOffsetI data
    else slice_columns startOffsetI (-1) data in
  let data := transpose data in
  Ok (set_data fileInfo (squeeze data)).

Definition load_selection (fs : filesystem) (fileName : string)
    (sampleStart numSamples : Z) (channels : channel_sel)
    (channelNames : option (list string)) : result FileInfo :=
  fileInfo <- load_header fs fileName channelNames ;;
  memoryMap <- createSIOMap fs fileInfo ;;
  loadFromMap memoryMap fileInfo sampleStart numSamples channels.

Definition load_allChannels (fs : filesystem) (fileName : string)
    (channelNames : option (list string)) : result FileInfo :=
  load_selection fs fileName (-1) 0 (ChanInt (-1)) channelNames.

(** ** Notions used in the statements *)

(** The eight integers of the header, in file order. *)
Definition header_fields (fi : FileInfo) : list Z :=
  [ fid fi; numRecords fi; recordLength fi; numChannels fi;
    bytesPerPoint fi; isReal fi; samplesPerChannel fi; endianCheck fi ].

(** Every key of the dictionary but ['data']. *)
Definition metadata (fi : FileInfo)
  : list Z * string * list byte * list byte * channel_names * dtype :=
  (header_fields fi, fileName fi, readName fi, comment fi, channelName fi,
   recordType fi).

(** Sample [q] of channel [c] in the mapped body: it lies in record [q / S]
    of that channel, at place [q mod S], [S] samples making a record. *)
Definition channel_sample (m : memmap) (c q : nat) : sample :=
  mm_sample m (q / mm_samples m) c (q mod mm_samples m).

(** The array [time, channel] holding samples [first .. first + count) of
    the channels [cs]. *)
Definition window (m : memmap) (cs : list nat) (first count : nat) : matrix :=
  {| nrows := count;
     ncols := length cs;
     cells := map (fun i => map (fun c => channel_sample m c (first + i)%nat) cs)
                  (seq 0 count) |}.

(** The array [channel, time] made of records [t0 .. t0 + nr) of the
    channels [cs], each channel's records laid end to end. *)
Definition gathered (m : memmap) (cs : list nat) (t0 nr : nat) : matrix :=
  {| nrows := length cs;
     ncols := (nr * mm_samples m)%nat;
     cells := map (fun c => concat (map (fun t => mm_record m t c) (seq t0 nr))) cs |}.

(** The same as the reader obtains it: no record at all is an error. *)
Definition gather (m : memmap) (cs : list nat) (t0 nr : nat) : result matrix :=
  if (nr =? 0)%nat then Err no_arrays else Ok (gathered m cs t0 nr).

(** Element [i, j] of an array of [width] columns stored in row-major
    order. *)
Definition entry (a : ndarray) (width i j : nat) : sample :=
  nth (i * width + j) (elems a) [].

(** The channels a selection stands for, in the order of the result's
    columns. *)
Definition selected_channels (fi : FileInfo) (channels : channel_sel) : list nat :=
  if any_negative channels then seq 0 (Z.to_nat (numChannels fi))
  else map Z.to_nat (sel_values channels).

Definition is_empty_list (channels : channel_sel) : bool :=
  match channels with
  | ChanList [] => true
  | _ => false
  end.

(** A selection the reader accepts: some entry is negative, or the entries
    are channel numbers of the file and there is at least one. *)
Definition valid_channels (fi : FileInfo) (channels : channel_sel) : bool :=
  any_negative channels
  || (negb (any_at_least channels (numChannels fi)) && negb (is_empty_list channels)).

(** A file that parses and maps. *)
Definition parsed (fs : filesystem) (name : string) (cn : option (list string))
    (fi : FileInfo) (m : memmap) : Prop :=
  load_header fs name cn = Ok fi /\ createSIOMap fs fi = Ok m.

(** A valid SIO file: it parses and maps, holds at least one record per
    channel and two samples per record, and announces no more samples per
    channel than its records hold. *)
Definition valid_sio (fs : filesystem) (name : string) (cn : option (list string))
    (fi : FileInfo) (m : memmap) : Prop :=
  parsed fs name cn fi m
  /\ (1 <= mm_records m)%nat
  /\ (2 <= mm_samples m)%nat
  /\ samplesPerChannel fi <= Z.of_nat (mm_records m * mm_samples m).

(** The map and the header describe the same geometry. *)
Definition coherent (m : memmap) (fi : FileInfo) : Prop :=
  numChannels fi = Z.of_nat (mm_channels m)
  /\ 0 < numChannels fi
  /\ Z.quot (numRecords fi) (numChannels fi) = Z.of_nat (mm_records m)
  /\ bytesPerPoint fi <> 0
  /\ Z.quot (recordLength fi) (bytesPerPoint fi) = Z.of_nat (mm_samples m).

(** The raw header of a file: its eight integers read little-endian. *)
Definition raw_header (file : list byte) : list Z := map le_i4 (chunks 4 8 file).

(** What [load_header] computes once the file is open and long enough. *)
Definition header_of (file : list byte) (name : string)
    (cn : option (list string)) (be : bool) (dt : scalar_dtype) : FileInfo :=
  let h := if be then map byteswap (raw_header file) else raw_header file in
  {| fid := nth 0 h 0; numRecords := nth 1 h 0; recordLength := nth 2 h 0;
     numChannels := nth 3 h 0; bytesPerPoint := nth 4 h 0; isReal := nth 5 h 0;
     samplesPerChannel := nth 6 h 0; endianCheck := nth 7 h 0;
     fileName := name;
     readName := firstn 24 (skipn 32 file);
     comment := firstn 72 (skipn 56 file);
     channelName := default_names cn (nth 3 h 0);
     recordType := {| base := if be then newbyteorder dt else dt;
                      subCount := Z.to_nat (Z.quot (nth 2 h 0) (nth 4 h 0)) |};
     data := None |}.

(** ** Sample files *)

(** A file with the given header integers, an empty name and comment, and
    [nsamples] samples of [size] bytes, sample [q] holding the number [q]. *)
Definition sio_file (ints : list Z) (nsamples size : nat) : list byte :=
  flat_map i4_bytes ints ++ repeat x00 96
  ++ flat_map (fun q => firstn size (i4_bytes (Z.of_nat q))) (seq 0 nsamples).

(** The same with every header integer stored most significant byte first. *)
Definition sio_file_be (ints : list Z) (nsamples size : nat) : list byte :=
  flat_map (fun x => rev (i4_bytes x)) ints ++ repeat x00 96
  ++ flat_map (fun q => rev (firstn size (i4_bytes (Z.of_nat q)))) (seq 0 nsamples).

Definition single_file (path : string) (bytes : list byte) : filesystem :=
  fun p => if String.eqb p path then Some bytes else None.

(** Two channels, two records of 32 floats each per channel, 64 samples per
    channel; the header fills exactly one record of 128 bytes. *)
Definition file_a : list byte := sio_file [0; 4; 128; 2; 4; 1; 64; 32677] 128 4.
Definition fs_a : filesystem := single_file "a.sio" file_a.

Definition info_a : FileInfo := header_of file_a "a.sio" None false f4_le.
Definition map_a : memmap :=
  {| mm_file := file_a; mm_dtype := recordType info_a; mm_offset := 128;
     mm_records := 2; mm_channels := 2 |}.

(** One channel, two records of 128 16-bit integers, records of 256 bytes:
    the header record runs to byte 256, the body is samples 64 to 319. *)
Definition file_b : list byte := sio_file [0; 2; 256; 1; 2; 1; 256; 32677] 320 2.
Definition fs_b : filesystem := single_file "b.sio" file_b.

Definition info_b : FileInfo := header_of file_b "b.sio" None false i2_le.
Definition map_b : memmap :=
  {| mm_file := file_b; mm_dtype := recordType info_b; mm_offset := 256;
     mm_records := 2; mm_channels := 1 |}.

(** [file_a] written on a big-endian machine. *)
Definition file_be : list byte := sio_file_be [0; 4; 128; 2; 4; 1; 64; 32677] 128 4.
Definition fs_be : filesystem := single_file "be.sio" file_be.

(** A header and nothing after it: no record at all. *)
Definition file_header_only : list byte :=
  sio_file [0; 0; 128; 2; 4; 1; 0; 32677] 0 4.
Definition fs_header_only : filesystem := single_file "h.sio" file_header_only.
Definition info_h : FileInfo := header_of file_header_only "h.sio" None false f4_le.
Definition map_h : memmap :=
  {| mm_file := file_header_only; mm_dtype := recordType info_h;
     mm_offset := 128; mm_records := 0; mm_channels := 2 |}.

(** A file with the eight header words of [file] each written in the other
    byte order, and the rest of [file] as it is. *)
Definition swap_header_words (file : list byte) : list byte :=
  flat_map (@rev byte) (chunks 4 8 file) ++ skipn 32 file.

(** [file_a] with a header that announces 100 samples per channel, more
    than its records hold. *)
Definition file_over : list byte := sio_file [0; 4; 128; 2; 4; 1; 100; 32677] 128 4.
Definition fs_over : filesystem := single_file "o.sio" file_over.
Definition info_over : FileInfo := header_of file_over "o.sio" None false f4_le.
Definition map_over : memmap :=
  {| mm_file := file_over; mm_dtype := recordType info_over; mm_offset := 128;
     mm_records := 2; mm_channels := 2 |}.


(** The header of [file_a] with the channel count set to zero. *)
Definition file_no_channel : list byte :=
  sio_file [0; 4; 128; 0; 4; 1; 64; 32677] 128 4.
Definition fs_no_channel : filesystem := single_file "z.sio" file_no_channel.

(** A header whose check value is wrong in both byte orders. *)
Definition file_bad_order : list byte := sio_file [0; 4; 128; 2; 4; 1; 64; 12345] 128 4.
Definition fs_bad_order : filesystem := single_file "x.sio" file_bad_order.

(** A header announcing 8 bytes per sample. *)
Definition file_wide : list byte := sio_file [0; 4; 128; 2; 8; 1; 32; 32677] 128 4.
Definition fs_wide : filesystem := single_file "w.sio" file_wide.

(** ** Lists *)

Lemma firstn_seq (n start len : nat) :
  firstn n (seq start len) = seq start (Nat.min n len).
Proof.
  revert start len; induction n as [|n IH]; intros start [|len]; simpl; auto.
  now rewrite IH.
Qed.

Lemma slice_bounds_le (a b : Z) (len : nat) :
  (fst (slice_bounds a b len) + snd (slice_bounds a b len) <= len)%nat.
Proof.
  unfold slice_bounds, clip_index; simpl.
  destruct (a <? 0) eqn:Ha, (b <? 0) eqn:Hb;
    rewrite ?Z.ltb_lt, ?Z.ltb_ge in Ha, Hb; lia.
Qed.

Lemma py_slice_seq (a b : Z) (len : nat) :
  py_slice a b (seq 0 len)
  = seq (fst (slice_bounds a b len)) (snd (slice_bounds a b len)).
Proof.
  unfold py_slice. rewrite length_seq.
  pose proof (slice_bounds_le a b len) as Hle.
  destruct (slice_bounds a b len) as [lo n]; simpl in *.
  rewrite skipn_seq, firstn_seq. f_equal. lia.
Qed.

Lemma py_slice_nth {A : Type} (a b : Z) (l : list A) (j : nat) (d : A) :
  (j < snd (slice_bounds a b (length l)))%nat ->
  nth j (py_slice a b l) d = nth (fst (slice_bounds a b (length l)) + j) l d.
Proof.
  unfold py_slice. destruct (slice_bounds a b (length l)) as [lo n]; simpl.
  intros Hj. rewrite nth_firstn.
  destruct (j <? n)%nat eqn:E.
  - apply nth_skipn.
  - apply Nat.ltb_ge in E. lia.
Qed.

Lemma nth_map_seq {A : Type} (f : nat -> A) (n i : nat) (d : A) :
  (i < n)%nat -> nth i (map f (seq 0 n)) d = f i.
Proof.
  intros Hi. rewrite (nth_indep _ d (f 0%nat)) by now rewrite length_map, length_seq.
  rewrite map_nth, seq_nth; auto.
Qed.

Section Uniform.
Variable A : Type.
Variable g : nat -> list A.
Variable width : nat.
Hypothesis g_length : forall t, length (g t) = width.

Lemma length_concat_uniform (t0 nr : nat) :
  length (concat (map g (seq t0 nr))) = (nr * width)%nat.
Proof.
  revert t0; induction nr as [|nr IH]; intros t0; simpl; auto.
  now rewrite length_app, IH, g_length.
Qed.

Lemma nth_concat_uniform (t0 nr q : nat) (d : A) :
  (q < nr * width)%nat ->
  nth q (concat (map g (seq t0 nr))) d
  = nth (q mod width) (g (t0 + q / width)%nat) d.
Proof.
  revert t0 q; induction nr as [|nr IH]; intros t0 q Hq; [simpl in Hq; lia|].
  assert (Hw : width <> 0%nat) by (intros ->; lia).
  simpl. destruct (Nat.lt_ge_cases q width) as [Hlt|Hge].
  - rewrite app_nth1 by now rewrite g_length.
    rewrite Nat.div_small, Nat.mod_small by assumption.
    now rewrite Nat.add_0_r.
  - rewrite app_nth2 by now rewrite g_length.
    rewrite g_length, IH by (simpl in Hq; lia).
    replace q with ((q - width) + 1 * width)%nat at 3 4 by lia.
    rewrite Nat.div_add, Nat.Div0.mod_add by assumption.
    f_equal. f_equal. lia.
Qed.
End Uniform.

Lemma zip_app_map {A B : Type} (f1 f2 : A -> list B) (cs : list A) :
  zip_app (map f1 cs) (map f2 cs) = map (fun c => f1 c ++ f2 c) cs.
Proof.
  induction cs as [|c cs IH]; simpl; auto. now rewrite IH.
Qed.

Lemma concatenate_axis1_map {A B : Type} (f : nat -> A -> list B)
    (cs : list A) (t0 : nat) (ts : list nat) :
  concatenate_axis1 (map (f t0) cs) (map (fun t => map (f t) cs) ts)
  = map (fun c => concat (map (fun t => f t c) (t0 :: ts))) cs.
Proof.
  revert t0; induction ts as [|t ts IH]; intros t0; simpl.
  - apply map_ext. intros c. now rewrite app_nil_r.
  - rewrite IH, zip_app_map. reflexivity.
Qed.

(** ** The header parser, step by step *)

Lemma raw_header_eight (file : list byte) :
  raw_header file
  = [ nth 0 (raw_header file) 0; nth 1 (raw_header file) 0;
      nth 2 (raw_header file) 0; nth 3 (raw_header file) 0;
      nth 4 (raw_header file) 0; nth 5 (raw_header file) 0;
      nth 6 (raw_header file) 0; nth 7 (raw_header file) 0 ].
Proof. reflexivity. Qed.

Lemma map_byteswap_eight (h : list Z) :
  length h = 8%nat ->
  map byteswap h
  = [ byteswap (nth 0 h 0); byteswap (nth 1 h 0); byteswap (nth 2 h 0);
      byteswap (nth 3 h 0); byteswap (nth 4 h 0); byteswap (nth 5 h 0);
      byteswap (nth 6 h 0); byteswap (nth 7 h 0) ].
Proof.
  intros H.
  do 8 (destruct h as [|? h]; [discriminate H|]).
  destruct h; [reflexivity | discriminate H].
Qed.

Lemma load_header_unfold (fs : filesystem) (name : string)
    (cn : option (list string)) (file : list byte) :
  fs name = Some file ->
  (32 <= length file)%nat ->
  load_header fs name cn =
    (be <- detect_big_endian (nth 7 (raw_header file) 0) ;;
     dt <- data_type_of (bytesPerPoint (header_of file name cn be f4_le)) ;;
     if Z.quot (recordLength (header_of file name cn be dt))
               (bytesPerPoint (header_of file name cn be dt)) <? 0
     then Err (ValueError "invalid shape in fixed-type tuple: dimension smaller then zero.")
     else Ok (header_of file name cn be dt)).
Proof.
  intros Hfs Hlen. unfold load_header, open_file. rewrite Hfs.
  cbn [bind]. unfold read_header_ints.
  apply Nat.ltb_ge in Hlen. rewrite Hlen.
  fold (raw_header file). rewrite (raw_header_eight file) at 1.
  cbn [rev app].
  destruct (detect_big_endian (nth 7 (raw_header file) 0)) as [be|e];
    cbn [bind]; reflexivity.
Qed.

Lemma load_header_short (fs : filesystem) (name : string)
    (cn : option (list string)) (file : list byte) :
  fs name = Some file ->
  (length file < 32)%nat ->
  load_header fs name cn
  = Err (IndexError "index -1 is out of bounds for axis 0 with size 0").
Proof.
  intros Hfs Hlen. unfold load_header, open_file. rewrite Hfs.
  cbn [bind]. unfold read_header_ints.
  apply Nat.ltb_lt in Hlen. now rewrite Hlen.
Qed.

Lemma load_header_inv (fs : filesystem) (name : string)
    (cn : option (list string)) (fi : FileInfo) :
  load_header fs name cn = Ok fi ->
  exists file be dt,
    fs name = Some file
    /\ (32 <= length file)%nat
    /\ detect_big_endian (nth 7 (raw_header file) 0) = Ok be
    /\ data_type_of (bytesPerPoint fi) = Ok dt
    /\ 0 <= Z.quot (recordLength fi) (bytesPerPoint fi)
    /\ fi = header_of file name cn be dt.
Proof.
  intros H.
  destruct (fs name) as [file|] eqn:Hfs;
    [|unfold load_header, open_file in H; rewrite Hfs in H; discriminate H].
  destruct (Nat.lt_ge_cases (length file) 32) as [Hlt|Hge];
    [rewrite (load_header_short fs name cn Hfs Hlt) in H; discriminate H|].
  rewrite (load_header_unfold fs name cn Hfs Hge) in H.
  destruct (detect_big_endian _) as [be|e] eqn:Hbe; [|discriminate H].
  cbn [bind] in H.
  destruct (data_type_of _) as [dt|e] eqn:Hdt; [|discriminate H].
  cbn [bind] in H.
  destruct (_ <? 0) eqn:Hneg; [discriminate H|].
  injection H as <-. apply Z.ltb_ge in Hneg.
  exists file, be, dt. repeat split; auto.
Qed.

Lemma data_type_of_inv (bpp : Z) (dt : scalar_dtype) :
  data_type_of bpp = Ok dt ->
  (bpp = 4 /\ dt = f4_le) \/ (bpp = 2 /\ dt = i2_le).
Proof.
  unfold data_type_of. intros H.
  destruct (bpp =? 4) eqn:E4.
  - apply Z.eqb_eq in E4. injection H as <-. now left.
  - destruct (bpp =? 2) eqn:E2; [|discriminate H].
    apply Z.eqb_eq in E2. injection H as <-. now right.
Qed.

(** After a successful parse the sample size of the record datatype is
    [bytesPerPoint]. *)
Lemma load_header_scalar_size (fs : filesystem) (name : string)
    (cn : option (list string)) (fi : FileInfo) :
  load_header fs name cn = Ok fi ->
  Z.of_nat (scalar_size (recordType fi)) = bytesPerPoint fi
  /\ subCount (recordType fi)
     = Z.to_nat (Z.quot (recordLength fi) (bytesPerPoint fi))
  /\ 0 <= Z.quot (recordLength fi) (bytesPerPoint fi)
  /\ data fi = None
  /\ fileName fi = name.
Proof.
  intros H. destruct (load_header_inv _ _ _ H)
    as (file & be & dt & Hfs & Hlen & Hbe & Hdt & Hq & Hfi).
  clear H Hbe.
  assert (Hsz : Z.of_nat (scalar_size (recordType fi)) = bytesPerPoint fi).
  { destruct (data_type_of_inv _ Hdt) as [[Hb ->]|[Hb ->]]; rewrite Hb;
      subst fi; unfold scalar_size, header_of;
      cbn [recordType base]; destruct be; reflexivity. }
  subst fi. unfold header_of in *.
  cbn [recordType subCount recordLength bytesPerPoint data fileName] in *.
  auto.
Qed.

Lemma np_int_div_inv (a b q : Z) :
  np_int_div a b = Ok q -> b <> 0 /\ q = Z.quot a b.
Proof.
  unfold np_int_div. destruct (b =? 0) eqn:E.
  - destruct (a =? 0); discriminate.
  - apply Z.eqb_neq in E. intros H. injection H as <-. auto.
Qed.

Lemma np_int_div_ok (a b : Z) :
  b <> 0 -> np_int_div a b = Ok (Z.quot a b).
Proof.
  intros Hb. unfold np_int_div. apply Z.eqb_neq in Hb. now rewrite Hb.
Qed.

Lemma createSIOMap_inv (fs : filesystem) (fi : FileInfo) (m : memmap) :
  createSIOMap fs fi = Ok m ->
  exists file,
    fs (fileName fi) = Some file
    /\ numChannels fi <> 0 /\ bytesPerPoint fi <> 0
    /\ 0 <= Z.quot (numRecords fi) (numChannels fi)
    /\ 0 <= numChannels fi
    /\ (mm_offset m + mm_records m * mm_channels m * itemsize (mm_dtype m)
        <= length file)%nat
    /\ m = {| mm_file := file;
              mm_dtype := recordType fi;
              mm_offset := itemsize (recordType fi);
              mm_records := Z.to_nat (Z.quot (numRecords fi) (numChannels fi));
              mm_channels := Z.to_nat (numChannels fi) |}.
Proof.
  unfold createSIOMap, open_file. intros H.
  destruct (np_int_div (numRecords fi) _) as [r|] eqn:Hr; [|discriminate H].
  destruct (np_int_div (recordLength fi) _) as [s|] eqn:Hs; [|discriminate H].
  apply np_int_div_inv in Hr, Hs. destruct Hr as [Hc ->], Hs as [Hb ->].
  cbn [bind] in H.
  destruct (fs (fileName fi)) as [file|]; [|discriminate H].
  cbn [bind] in H.
  destruct (_ || _) eqn:Hneg; [discriminate H|].
  apply orb_false_elim in Hneg. destruct Hneg as [Hn1 Hn2].
  apply Z.ltb_ge in Hn1, Hn2.
  destruct (length file =? 0)%nat; [discriminate H|].
  destruct (length file <? _)%nat eqn:Hlen; [discriminate H|].
  apply Nat.ltb_ge in Hlen.
  injection H as <-. exists file. cbn. repeat split; auto.
Qed.

Lemma parsed_coherent (fs : filesystem) (name : string)
    (cn : option (list string)) (fi : FileInfo) (m : memmap) :
  parsed fs name cn fi m -> coherent m fi.
Proof.
  intros [Hh Hm].
  destruct (createSIOMap_inv _ _ Hm)
    as (file & Hfs & Hc & Hb & Hr & Hc0 & Hlen & ->).
  destruct (load_header_scalar_size _ _ _ Hh) as (Hsz & Hsub & Hq & _).
  unfold coherent, mm_samples. cbn.
  rewrite Hsub. repeat split; auto; lia.
Qed.

(** ** The windowed reader, step by step *)

Lemma length_mm_record (m : memmap) (t c : nat) :
  length (mm_record m t c) = mm_samples m.
Proof. unfold mm_record. now rewrite length_map, length_seq. Qed.

Lemma mapM_channel_position (m : memmap) (l : list Z) :
  (forall c, In c l -> 0 <= c < Z.of_nat (mm_channels m)) ->
  mapM (channel_position m) l = Ok (map Z.to_nat l).
Proof.
  induction l as [|c l IH]; intros Hl; [reflexivity|].
  cbn [mapM map]. unfold channel_position at 1.
  destruct (Hl c (or_introl eq_refl)) as [H0 H1].
  apply Z.leb_le in H0. apply Z.ltb_lt in H1. rewrite H0, H1.
  cbn [andb bind]. rewrite IH; [reflexivity|].
  intros c' Hc'. apply Hl. now right.
Qed.

Lemma map_to_nat_py_range (n : Z) :
  map Z.to_nat (py_range n) = seq 0 (Z.to_nat n).
Proof.
  unfold py_range. rewrite map_map. rewrite <- (map_id (seq 0 (Z.to_nat n))) at 2.
  apply map_ext. intros a. apply Nat2Z.id.
Qed.

Lemma in_py_range (n c : Z) : In c (py_range n) -> 0 <= c < n.
Proof.
  unfold py_range. rewrite in_map_iff. intros (k & <- & Hk).
  apply in_seq in Hk. lia.
Qed.

Lemma any_at_least_false (channels : channel_sel) (n c : Z) :
  any_at_least channels n = false -> In c (sel_values channels) -> c < n.
Proof.
  unfold any_at_least. intros H Hc.
  destruct (Z.lt_ge_cases c n) as [Hlt|Hge]; [assumption|exfalso].
  assert (Hex : existsb (fun c => c >=? n) (sel_values channels) = true).
  { apply existsb_exists. exists c. split; [assumption|]. now apply Z.geb_le. }
  congruence.
Qed.

Lemma any_negative_false (channels : channel_sel) (c : Z) :
  any_negative channels = false -> In c (sel_values channels) -> 0 <= c.
Proof.
  unfold any_negative. intros H Hc.
  destruct (Z.lt_ge_cases c 0) as [Hlt|Hge]; [exfalso|assumption].
  assert (Hex : existsb (fun c => c <? 0) (sel_values channels) = true).
  { apply existsb_exists. exists c. split; [assumption|]. now apply Z.ltb_lt. }
  congruence.
Qed.

Lemma concatenate_sel3 (m : memmap) (cs : list nat) (t0 nr : nat) :
  concatenate m (Sel3 (map (fun t => map (mm_record m t) cs) (seq t0 nr)))
  = gather m cs t0 nr.
Proof.
  unfold gather. destruct nr as [|nr]; [reflexivity|].
  cbn [seq map concatenate Nat.eqb]. rewrite concatenate_axis1_map.
  unfold gathered. cbn [length seq map].
  now rewrite !length_map, length_seq.
Qed.

Lemma concatenate_sel2 (m : memmap) (c : nat) (t0 nr : nat) :
  concatenate m (Sel2 (map (fun t => mm_record m t c) (seq t0 nr)))
  = gather m [c] t0 nr.
Proof.
  unfold gather. destruct nr as [|nr]; [reflexivity|].
  cbn [seq map concatenate Nat.eqb]. unfold gathered.
  cbn [length seq map]. now rewrite !length_map, length_seq.
Qed.

Lemma select_concatenate (m : memmap) (fi : FileInfo) (channels : channel_sel) :
  coherent m fi ->
  mm_samples m <> 1%nat ->
  valid_channels fi channels = true ->
  exists idx,
    resolve_channels fi channels = Ok idx
    /\ forall rs re,
         (sel <- select m rs re idx ;; concatenate m sel)
         = gather m (selected_channels fi channels)
                  (fst (slice_bounds rs re (mm_records m)))
                  (snd (slice_bounds rs re (mm_records m))).
Proof.
  intros (Hc & Hc0 & _) Hs1 Hv. unfold valid_channels in Hv.
  apply Nat.eqb_neq in Hs1.
  unfold resolve_channels, selected_channels, select. rewrite Hs1.
  destruct (any_negative channels) eqn:Hneg.
  - exists (IndexRange (numChannels fi)). split; [reflexivity|]. intros rs re.
    rewrite mapM_channel_position.
    + cbn [bind]. rewrite py_slice_seq, map_to_nat_py_range.
      apply concatenate_sel3.
    + intros c Hin. apply in_py_range in Hin. lia.
  - cbn [orb] in Hv. apply andb_true_iff in Hv. destruct Hv as [Hge Hne].
    apply negb_true_iff in Hge. apply negb_true_iff in Hne. rewrite Hge.
    assert (Hin : forall c, In c (sel_values channels) ->
                            0 <= c < Z.of_nat (mm_channels m)).
    { intros c Hc'. split.
      - eapply any_negative_false; eauto.
      - rewrite <- Hc. eapply any_at_least_false; eauto. }
    destruct channels as [c|l].
    + exists (IndexScalar c). split; [reflexivity|]. intros rs re.
      unfold channel_position.
      destruct (Hin c (or_introl eq_refl)) as [H0 H1].
      apply Z.leb_le in H0. apply Z.ltb_lt in H1. rewrite H0, H1.
      cbn [andb bind sel_values map]. rewrite py_slice_seq.
      apply concatenate_sel2.
    + exists (IndexArray l). split; [reflexivity|]. intros rs re.
      destruct l as [|c l]; [discriminate Hne|].
      rewrite mapM_channel_position by exact Hin.
      cbn [bind sel_values]. rewrite py_slice_seq.
      apply concatenate_sel3.
Qed.

Lemma nth_mm_record (m : memmap) (t c s : nat) :
  (s < mm_samples m)%nat -> nth s (mm_record m t c) [] = mm_sample m t c s.
Proof. intros Hs. unfold mm_record. now apply nth_map_seq. Qed.

(** Trimming the gathered records and turning the array over gives the
    window that starts [lo] samples into record [t0]. *)
Lemma transpose_slice_gathered (m : memmap) (cs : list nat) (t0 nr : nat)
    (a b : Z) :
  transpose (slice_columns a b (gathered m cs t0 nr))
  = window m cs
      (t0 * mm_samples m + fst (slice_bounds a b (nr * mm_samples m)))
      (snd (slice_bounds a b (nr * mm_samples m))).
Proof.
  unfold transpose, slice_columns, gathered, window.
  cbn [nrows ncols cells].
  pose proof (slice_bounds_le a b (nr * mm_samples m)) as Hle.
  destruct (slice_bounds a b (nr * mm_samples m)) as [lo w] eqn:Hsb.
  cbn [fst snd] in *. f_equal.
  apply map_ext_in. intros j Hj. apply in_seq in Hj.
  rewrite !map_map. apply map_ext. intros c.
  assert (Hlen : length (concat (map (fun t => mm_record m t c) (seq t0 nr)))
                 = (nr * mm_samples m)%nat).
  { apply length_concat_uniform. intros t. apply length_mm_record. }
  rewrite py_slice_nth; rewrite Hlen, Hsb; cbn [fst snd]; [|lia].
  rewrite (nth_concat_uniform (fun t => mm_record m t c) (width := mm_samples m))
    by (try (intros t; apply length_mm_record); lia).
  assert (Hw : mm_samples m <> 0%nat) by (intros E; rewrite E in Hle; lia).
  rewrite nth_mm_record by (apply Nat.mod_upper_bound; assumption).
  unfold channel_sample.
  replace (t0 * mm_samples m + lo + j)%nat
    with ((lo + j) + t0 * mm_samples m)%nat by lia.
  rewrite Nat.div_add, Nat.Div0.mod_add by assumption.
  f_equal. lia.
Qed.

(** The whole reader on a coherent map and a valid selection, once the time
    indices are known. *)
Lemma loadFromMap_eq (m : memmap) (fi : FileInfo) (sampleStart numSamples : Z)
    (channels : channel_sel) (rs re a b : Z) :
  coherent m fi ->
  mm_samples m <> 1%nat ->
  valid_channels fi channels = true ->
  time_indices fi (Z.of_nat (mm_records m)) (Z.of_nat (mm_samples m))
               sampleStart numSamples = Ok (rs, re, a, b) ->
  loadFromMap m fi sampleStart numSamples channels
  = let t0 := fst (slice_bounds rs re (mm_records m)) in
    let nr := snd (slice_bounds rs re (mm_records m)) in
    let b' := if b =? 0 then -1 else b in
    if (nr =? 0)%nat then Err no_arrays
    else Ok (set_data fi (squeeze
          (window m (selected_channels fi channels)
             (t0 * mm_samples m + fst (slice_bounds a b' (nr * mm_samples m)))
             (snd (slice_bounds a b' (nr * mm_samples m)))))).
Proof.
  intros Hcoh Hs1 Hv Hti.
  destruct (select_concatenate channels Hcoh Hs1 Hv) as (idx & Hres & Hsel).
  destruct Hcoh as (Hc & Hc0 & Hr & Hb & Hs).
  unfold loadFromMap.
  rewrite !np_int_div_ok by lia. cbn [bind]. rewrite Hr, Hs, Hti.
  cbn [bind]. rewrite Hres. cbn [bind].
  specialize (Hsel rs re). unfold gather in Hsel.
  cbv zeta.
  destruct (select m rs re idx) as [sel|e]; cbn [bind] in Hsel |- *.
  - rewrite Hsel. destruct (_ =? 0)%nat; [reflexivity|].
    cbn [bind]. do 2 f_equal.
    destruct (b =? 0); cbn [negb]; now rewrite transpose_slice_gathered.
  - destruct (_ =? 0)%nat; congruence.
Qed.

(** ** Slices with known ends *)

Lemma slice_bounds_clip (a b : Z) (len : nat) :
  0 <= a <= Z.of_nat len -> 0 <= b ->
  slice_bounds a b len = (Z.to_nat a, Z.to_nat (Z.min b (Z.of_nat len) - a)).
Proof.
  intros Ha Hb. unfold slice_bounds, clip_index.
  destruct (a <? 0) eqn:Ea; [apply Z.ltb_lt in Ea; lia|].
  destruct (b <? 0) eqn:Eb; [apply Z.ltb_lt in Eb; lia|].
  rewrite (Z.min_l a) by lia. reflexivity.
Qed.

Lemma slice_bounds_inside (a b : Z) (len : nat) :
  0 <= a <= b -> b <= Z.of_nat len ->
  slice_bounds a b len = (Z.to_nat a, Z.to_nat (b - a)).
Proof.
  intros Ha Hb. rewrite slice_bounds_clip by lia.
  now rewrite Z.min_l by lia.
Qed.

Lemma slice_bounds_drop_last (len : nat) :
  slice_bounds 0 (-1) len = (0%nat, (len - 1)%nat).
Proof.
  unfold slice_bounds, clip_index. cbn [Z.ltb Z.compare].
  rewrite Z.min_l by lia. f_equal. lia.
Qed.

Lemma slice_bounds_all (len : nat) :
  slice_bounds 0 (Z.of_nat len) len = (0%nat, len).
Proof. rewrite slice_bounds_inside by lia. f_equal. lia. Qed.

(** ** The reader on each kind of request *)

(** A negative start: records [0 .. recPerChan) are read and the last sample
    is trimmed away. *)
Lemma loadFromMap_full (m : memmap) (fi : FileInfo) (sampleStart numSamples : Z)
    (channels : channel_sel) :
  coherent m fi ->
  mm_samples m <> 1%nat ->
  valid_channels fi channels = true ->
  sampleStart < 0 ->
  loadFromMap m fi sampleStart numSamples channels
  = if (mm_records m =? 0)%nat then Err no_arrays
    else Ok (set_data fi (squeeze
           (window m (selected_channels fi channels) 0
              (mm_records m * mm_samples m - 1)))).
Proof.
  intros Hcoh Hs1 Hv Hs.
  rewrite (loadFromMap_eq (rs := 0) (re := Z.of_nat (mm_records m))
             (a := 0) (b := 0) _ _ _ Hcoh Hs1 Hv).
  - cbv zeta. rewrite slice_bounds_all. cbn [fst snd Z.eqb].
    rewrite slice_bounds_drop_last. cbn [fst snd].
    now rewrite Nat.mul_0_l.
  - unfold time_indices. apply Z.ltb_lt in Hs. now rewrite Hs.
Qed.

(** The time indices of a request inside the bounds. *)
Lemma time_indices_inside (fi : FileInfo) (R S sampleStart numSamples : Z) :
  0 <= sampleStart ->
  sampleStart + numSamples <= samplesPerChannel fi ->
  0 < S ->
  0 <= numSamples ->
  time_indices fi R S sampleStart numSamples
  = Ok (sampleStart / S, (sampleStart + numSamples) / S + 1,
        sampleStart mod S, sampleStart mod S + numSamples).
Proof.
  intros Hs Hn HS Hn0. unfold time_indices.
  destruct (sampleStart <? 0) eqn:E1; [apply Z.ltb_lt in E1; lia|].
  destruct (_ >? _) eqn:E2; [apply Z.gtb_lt in E2; lia|].
  destruct (S =? 0) eqn:E3; [apply Z.eqb_eq in E3; lia|].
  rewrite Z.quot_div_nonneg by lia. reflexivity.
Qed.

(** A window of at least one sample inside the bounds. *)
Lemma loadFromMap_window (m : memmap) (fi : FileInfo) (sampleStart numSamples : Z)
    (channels : channel_sel) :
  coherent m fi ->
  mm_samples m <> 1%nat ->
  valid_channels fi channels = true ->
  samplesPerChannel fi <= Z.of_nat (mm_records m * mm_samples m) ->
  0 <= sampleStart ->
  1 <= numSamples ->
  sampleStart + numSamples <= samplesPerChannel fi ->
  loadFromMap m fi sampleStart numSamples channels
  = Ok (set_data fi (squeeze
         (window m (selected_channels fi channels)
            (Z.to_nat sampleStart) (Z.to_nat numSamples)))).
Proof.
  intros Hcoh Hs1 Hv Hspc Hs Hn Hsn.
  set (S := Z.of_nat (mm_samples m)). set (R := Z.of_nat (mm_records m)).
  assert (HRS : Z.of_nat (mm_records m * mm_samples m) = R * S)
    by (subst R S; lia).
  assert (HS : 0 < S) by (subst R S; nia).
  pose proof (Z.div_mod sampleStart S ltac:(lia)) as Hdm.
  pose proof (Z.mod_pos_bound sampleStart S HS) as Hmod.
  pose proof (Z.div_mod (sampleStart + numSamples) S ltac:(lia)) as Hdm'.
  pose proof (Z.mod_pos_bound (sampleStart + numSamples) S HS) as Hmod'.
  set (q := sampleStart / S) in *. set (r := sampleStart mod S) in *.
  set (q' := (sampleStart + numSamples) / S) in *.
  set (r' := (sampleStart + numSamples) mod S) in *.
  assert (Hq0 : 0 <= q) by nia.
  assert (HqR : q < R) by nia.
  assert (Hqq : q <= q') by nia.
  rewrite (loadFromMap_eq (rs := q) (re := q' + 1) (a := r) (b := r + numSamples)
             _ _ _ Hcoh Hs1 Hv)
    by (apply time_indices_inside; lia).
  cbv zeta. rewrite (slice_bounds_clip (a := q) (b := q' + 1)) by (fold R; lia).
  cbn [fst snd]. fold R.
  set (nr := Z.to_nat (Z.min (q' + 1) R - q)).
  assert (Hnr : Z.of_nat nr = Z.min (q' + 1) R - q) by (subst nr; lia).
  assert (Hnr1 : (1 <= nr)%nat) by lia.
  destruct (nr =? 0)%nat eqn:E; [apply Nat.eqb_eq in E; lia|].
  destruct (r + numSamples =? 0) eqn:E0; [apply Z.eqb_eq in E0; lia|].
  assert (Hlen : r + numSamples <= Z.of_nat (nr * mm_samples m)).
  { rewrite Nat2Z.inj_mul, Hnr. fold S.
    destruct (Z.min_spec (q' + 1) R) as [[_ ->]|[_ ->]]; nia. }
  rewrite slice_bounds_inside by lia. cbn [fst snd].
  replace (Z.to_nat q * mm_samples m + Z.to_nat r)%nat with (Z.to_nat sampleStart).
  - now replace (r + numSamples - r) with numSamples by lia.
  - apply Nat2Z.inj. rewrite Nat2Z.inj_add, Nat2Z.inj_mul, !Z2Nat.id by lia.
    fold S. lia.
Qed.

(** A request for no sample at all, inside the bounds. *)
Lemma loadFromMap_empty (m : memmap) (fi : FileInfo) (sampleStart : Z)
    (channels : channel_sel) :
  coherent m fi ->
  valid_channels fi channels = true ->
  (2 <= mm_samples m)%nat ->
  0 <= sampleStart <= samplesPerChannel fi ->
  sampleStart <= Z.of_nat (mm_records m * mm_samples m) ->
  loadFromMap m fi sampleStart 0 channels
  = if sampleStart =? Z.of_nat (mm_records m * mm_samples m) then Err no_arrays
    else Ok (set_data fi (squeeze
           (window m (selected_channels fi channels) (Z.to_nat sampleStart)
              (if sampleStart mod Z.of_nat (mm_samples m) =? 0
               then mm_samples m - 1 else 0)))).
Proof.
  intros Hcoh Hv HS1 Hs Hrs.
  set (S := Z.of_nat (mm_samples m)). set (R := Z.of_nat (mm_records m)).
  assert (HRS : Z.of_nat (mm_records m * mm_samples m) = R * S)
    by (subst R S; lia).
  rewrite HRS in *.
  assert (HS : 0 < S) by (subst S; lia).
  pose proof (Z.div_mod sampleStart S ltac:(lia)) as Hdm.
  pose proof (Z.mod_pos_bound sampleStart S HS) as Hmod.
  set (q := sampleStart / S) in *. set (r := sampleStart mod S) in *.
  assert (Hq0 : 0 <= q) by nia.
  assert (HqR : q <= R) by nia.
  rewrite (loadFromMap_eq (rs := q) (re := q + 1) (a := r) (b := r + 0)
             _ _ _ Hcoh ltac:(lia) Hv).
  2:{ fold R S. rewrite time_indices_inside by lia.
      now rewrite Z.add_0_r. }
  cbv zeta. rewrite (slice_bounds_clip (a := q) (b := q + 1)) by (fold R; lia).
  cbn [fst snd]. fold R. rewrite Z.add_0_r.
  destruct (sampleStart =? R * S) eqn:Eend.
  - apply Z.eqb_eq in Eend.
    assert (q = R) by nia.
    replace (Z.to_nat (Z.min (q + 1) R - q)) with 0%nat by lia.
    reflexivity.
  - apply Z.eqb_neq in Eend.
    assert (HqR' : q < R) by nia.
    replace (Z.to_nat (Z.min (q + 1) R - q)) with 1%nat by lia.
    cbn [Nat.eqb]. rewrite Nat.mul_1_l.
    assert (Hfirst : forall lo, Z.of_nat lo = r ->
              (Z.to_nat q * mm_samples m + lo)%nat = Z.to_nat sampleStart).
    { intros lo Hlo. apply Nat2Z.inj.
      rewrite Nat2Z.inj_add, Nat2Z.inj_mul, !Z2Nat.id by lia. fold S. lia. }
    destruct (r =? 0) eqn:Er.
    + apply Z.eqb_eq in Er. rewrite Er.
      rewrite slice_bounds_drop_last. cbn [fst snd].
      rewrite (Hfirst 0%nat) by lia. reflexivity.
    + apply Z.eqb_neq in Er.
      rewrite slice_bounds_inside by (fold S; lia). cbn [fst snd].
      rewrite (Hfirst (Z.to_nat r)) by lia.
      now rewrite Z.sub_diag.
Qed.

(** ** The returned array *)

Lemma squeeze_window_shape (m : memmap) (cs : list nat) (first count : nat) :
  shape (squeeze (window m cs first count)) = squeezed [count; length cs].
Proof. reflexivity. Qed.

Lemma squeeze_window_length (m : memmap) (cs : list nat) (first count : nat) :
  length (elems (squeeze (window m cs first count))) = (count * length cs)%nat.
Proof.
  unfold squeeze, window. cbn [elems cells].
  apply (length_concat_uniform
           (fun i => map (fun c => channel_sample m c (first + i)%nat) cs)).
  intros t. apply length_map.
Qed.

Lemma squeeze_window_entry (m : memmap) (cs : list nat) (first count i j : nat) :
  (i < count)%nat -> (j < length cs)%nat ->
  entry (squeeze (window m cs first count)) (length cs) i j
  = channel_sample m (nth j cs 0%nat) (first + i)%nat.
Proof.
  intros Hi Hj. unfold entry, squeeze, window. cbn [elems cells].
  rewrite (nth_concat_uniform
             (fun i => map (fun c => channel_sample m c (first + i)%nat) cs)
             (width := length cs))
    by (try (intros t; apply length_map); nia).
  assert (Hk : length cs <> 0%nat) by lia.
  rewrite Nat.add_comm, Nat.Div0.mod_add, Nat.div_add, Nat.mod_small,
    Nat.div_small by assumption.
  cbn [Nat.add].
  rewrite (nth_indep _ [] (channel_sample m 0%nat (first + i)%nat))
    by now rewrite length_map.
  apply (map_nth (fun c => channel_sample m c (first + i)%nat)).
Qed.

(** ** Where the errors come from *)

Ltac destruct_bind H :=
  match type of H with
  | bind ?r _ = _ =>
      let E := fresh "E" in
      let x := fresh "x" in
      let e := fresh "e" in
      destruct r as [x|e] eqn:E; cbn [bind] in H
  end.

Lemma load_selection_parsed (fs : filesystem) (name : string)
    (cn : option (list string)) (fi : FileInfo) (m : memmap)
    (sampleStart numSamples : Z) (channels : channel_sel) :
  parsed fs name cn fi m ->
  load_selection fs name sampleStart numSamples channels cn
  = loadFromMap m fi sampleStart numSamples channels.
Proof.
  intros [Hh Hm]. unfold load_selection. rewrite Hh. cbn [bind].
  rewrite Hm. reflexivity.
Qed.

Lemma np_int_div_error (a b : Z) (e : error) :
  np_int_div a b = Err e -> forall msg, e <> NameError msg.
Proof.
  unfold np_int_div. destruct (b =? 0); [|discriminate].
  destruct (a =? 0); intros H; injection H as <-; discriminate.
Qed.

Lemma mapM_channel_position_error (m : memmap) (l : list Z) (e : error) :
  mapM (channel_position m) l = Err e -> forall msg, e <> NameError msg.
Proof.
  induction l as [|c l IH]; cbn [mapM]; [discriminate|].
  intros H. destruct_bind H.
  - destruct_bind H; [discriminate H|]. injection H as <-. now apply IH.
  - injection H as <-. unfold channel_position in E.
    destruct (_ && _); [discriminate E|]. injection E as <-. discriminate.
Qed.

Lemma select_error (m : memmap) (rs re : Z) (idx : channel_index) (e : error) :
  select m rs re idx = Err e -> forall msg, e <> NameError msg.
Proof.
  unfold select. destruct (_ =? 1)%nat;
    [intros H; injection H as <-; discriminate|].
  destruct idx as [c|l|n]; intros H.
  - destruct_bind H; [discriminate H|]. injection H as <-.
    unfold channel_position in E.
    destruct (_ && _); [discriminate E|]. injection E as <-. discriminate.
  - destruct l as [|c l]; [injection H as <-; discriminate|].
    destruct_bind H; [discriminate H|]. injection H as <-.
    eapply mapM_channel_position_error; eauto.
  - destruct_bind H; [discriminate H|]. injection H as <-.
    eapply mapM_channel_position_error; eauto.
Qed.

Lemma concatenate_error (m : memmap) (sel : selection) (e : error) :
  concatenate m sel = Err e -> e = no_arrays.
Proof.
  destruct sel as [[|a rest]|[|a rest]]; cbn [concatenate]; congruence.
Qed.

Lemma msg_bounds_channels : msg_bounds <> msg_channels.
Proof. discriminate. Qed.

(** The reader raises a [NameError] in two places only: at the bounds check,
    and at the channel check, which comes second. *)
Lemma loadFromMap_name_error (m : memmap) (fi : FileInfo)
    (sampleStart numSamples : Z) (channels : channel_sel) (msg : string) :
  loadFromMap m fi sampleStart numSamples channels = Err (NameError msg) ->
  (msg = msg_bounds
   /\ 0 <= sampleStart
   /\ sampleStart + numSamples > samplesPerChannel fi)
  \/ (msg = msg_channels
      /\ any_negative channels = false
      /\ any_at_least channels (numChannels fi) = true
      /\ (sampleStart < 0 \/ sampleStart + numSamples <= samplesPerChannel fi)).
Proof.
  unfold loadFromMap. intros H.
  destruct_bind H; [|injection H as ->; now eapply np_int_div_error in E].
  destruct_bind H; [|injection H as ->; now eapply np_int_div_error in E0].
  destruct_bind H.
  - right. destruct x1 as [[[rs re] a] b].
    assert (Hwin : sampleStart < 0
                   \/ sampleStart + numSamples <= samplesPerChannel fi).
    { unfold time_indices in E1.
      destruct (sampleStart <? 0) eqn:Es; [apply Z.ltb_lt in Es; now left|].
      destruct (_ >? _) eqn:Eb; [discriminate E1|].
      right. rewrite Z.gtb_ltb in Eb. apply Z.ltb_ge in Eb. lia. }
    destruct_bind H.
    + exfalso. destruct_bind H.
      * destruct_bind H; [discriminate H|].
        apply concatenate_error in E4. subst e. discriminate H.
      * injection H as ->. now eapply select_error in E3.
    + unfold resolve_channels in E2.
      destruct (any_negative channels); [discriminate E2|].
      destruct (any_at_least channels (numChannels fi)); [|discriminate E2].
      injection E2 as <-. injection H as <-. auto.
  - left. unfold time_indices in E1.
    destruct (sampleStart <? 0) eqn:Es; [discriminate E1|].
    apply Z.ltb_ge in Es.
    destruct (_ >? _) eqn:Eb.
    + apply Z.gtb_lt in Eb. injection E1 as <-. injection H as <-.
      repeat split; auto; lia.
    + destruct (x0 =? 0); [|discriminate E1].
      injection E1 as <-. discriminate H.
Qed.

(** Whatever the reader returns is the header it was given, with the array
    stored under ['data']. *)
Lemma loadFromMap_ok (m : memmap) (fi r : FileInfo)
    (sampleStart numSamples : Z) (channels : channel_sel) :
  loadFromMap m fi sampleStart numSamples channels = Ok r ->
  exists d, r = set_data fi d.
Proof.
  unfold loadFromMap. intros H.
  do 3 (destruct_bind H; [|discriminate H]).
  destruct x1 as [[[rs re] a] b].
  do 3 (destruct_bind H; [|discriminate H]).
  injection H as <-. eauto.
Qed.

(** ** The sample files are what they are meant to be *)

Lemma parsed_a : parsed fs_a "a.sio" None info_a map_a.
Proof. split; vm_compute; reflexivity. Qed.

Lemma valid_a : valid_sio fs_a "a.sio" None info_a map_a.
Proof.
  split; [exact parsed_a|].
  repeat split; cbn [mm_records mm_samples map_a]; try lia.
  - vm_compute. lia.
  - vm_compute. discriminate.
Qed.

Lemma parsed_b : parsed fs_b "b.sio" None info_b map_b.
Proof. split; vm_compute; reflexivity. Qed.

(** * The claims *)

(** ** Metadata *)

(** C8. Whenever a windowed read succeeds, the header-only parse of the same
    file succeeds too, and the mapping returned by [load_selection] is the
    one returned by [load_header] with the array stored under ['data']: every
    other key has the same value, and ['data'] is the one key added. *)
Theorem C8_metadata_unchanged (fs : filesystem) (name : string)
    (cn : option (list string)) (sampleStart numSamples : Z)
    (channels : channel_sel) (r : FileInfo) :
  load_selection fs name sampleStart numSamples channels cn = Ok r ->
  exists fi d,
    load_header fs name cn = Ok fi
    /\ r = set_data fi d
    /\ metadata r = metadata fi
    /\ data fi = None
    /\ data r = Some d.
Proof.
  unfold load_selection. intros H.
  destruct_bind H; [|discriminate H].
  destruct_bind H; [|discriminate H].
  destruct (loadFromMap_ok _ _ _ _ _ H) as [d ->].
  exists x, d. repeat split.
  now destruct (load_header_scalar_size _ _ _ E) as (_ & _ & _ & Hd & _).
Qed.

Lemma C8_metadata_unchanged_witness :
  exists r,
    load_selection fs_a "a.sio" 30 4 (ChanList [1; 0]) None = Ok r
    /\ exists fi d,
         load_header fs_a "a.sio" None = Ok fi
         /\ r = set_data fi d
         /\ metadata r = metadata fi
         /\ data fi = None
         /\ data r = Some d.
Proof.
  eexists. split.
  - vm_compute. reflexivity.
  - apply (C8_metadata_unchanged fs_a "a.sio" None 30 4 (ChanList [1; 0])).
    vm_compute. reflexivity.
Defined.

(** ** Request errors *)

(** C4. For a file that parses and maps and a request with
    [sampleStart >= 0], the reader raises "Index range exceeds file bounds"
    exactly when [sampleStart + numSamples > samplesPerChannel]; and when it
    does, the read returns nothing at all. *)
Theorem C4_bounds_error_iff (fs : filesystem) (name : string)
    (cn : option (list string)) (fi : FileInfo) (m : memmap)
    (sampleStart numSamples : Z) (channels : channel_sel) :
  parsed fs name cn fi m ->
  0 <= sampleStart ->
  (loadFromMap m fi sampleStart numSamples channels = Err (NameError msg_bounds)
   <-> sampleStart + numSamples > samplesPerChannel fi)
  /\ (load_selection fs name sampleStart numSamples channels cn
      = Err (NameError msg_bounds)
      <-> sampleStart + numSamples > samplesPerChannel fi)
  /\ (sampleStart + numSamples > samplesPerChannel fi ->
      forall r, load_selection fs name sampleStart numSamples channels cn <> Ok r).
Proof.
  intros Hp Hs.
  pose proof (parsed_coherent Hp) as (Hc & Hc0 & Hr & Hb & Hsam).
  rewrite (load_selection_parsed _ _ _ Hp).
  assert (Hiff : loadFromMap m fi sampleStart numSamples channels
                 = Err (NameError msg_bounds)
                 <-> sampleStart + numSamples > samplesPerChannel fi).
  { split.
    - intros H. apply loadFromMap_name_error in H.
      destruct H as [(_ & _ & H)|(H & _)]; [assumption|].
      now apply msg_bounds_channels in H.
    - intros H. unfold loadFromMap.
      rewrite !np_int_div_ok by lia. cbn [bind]. unfold time_indices.
      destruct (sampleStart <? 0) eqn:Es; [apply Z.ltb_lt in Es; lia|].
      apply Z.gt_lt, Z.ltb_lt in H. rewrite Z.gtb_ltb. now rewrite H. }
  repeat split; try apply Hiff.
  intros H r Hr'. apply Hiff in H. congruence.
Qed.

Lemma C4_bounds_error_iff_witness :
  (load_selection fs_a "a.sio" 60 5 (ChanInt 0) None = Err (NameError msg_bounds)
   <-> 60 + 5 > samplesPerChannel info_a)
  /\ 60 + 5 > samplesPerChannel info_a.
Proof.
  split.
  - apply (@C4_bounds_error_iff fs_a "a.sio" None info_a map_a 60 5 (ChanInt 0)).
    + split; vm_compute; reflexivity.
    + lia.
  - vm_compute. reflexivity.
Defined.

(** C9. A selection with at least one negative entry is read as the
    selection of all channels, whatever its other entries are: the reader
    does what it does for [-1], never raises the channel-range error, and on
    a valid file and an accepted window returns one column per channel of
    the file. *)
Theorem C9_negative_entry_selects_all (fs : filesystem) (name : string)
    (cn : option (list string)) (fi : FileInfo) (m : memmap)
    (sampleStart numSamples : Z) (channels : channel_sel) :
  any_negative channels = true ->
  resolve_channels fi channels = Ok (IndexRange (numChannels fi))
  /\ loadFromMap m fi sampleStart numSamples channels
     = loadFromMap m fi sampleStart numSamples (ChanInt (-1))
  /\ loadFromMap m fi sampleStart numSamples channels
     <> Err (NameError msg_channels)
  /\ (valid_sio fs name cn fi m ->
      0 <= sampleStart -> 1 <= numSamples ->
      sampleStart + numSamples <= samplesPerChannel fi ->
      load_selection fs name sampleStart numSamples channels cn
      = Ok (set_data fi (squeeze
              (window m (seq 0 (Z.to_nat (numChannels fi)))
                 (Z.to_nat sampleStart) (Z.to_nat numSamples))))).
Proof.
  intros Hneg.
  assert (Hres : resolve_channels fi channels = Ok (IndexRange (numChannels fi)))
    by (unfold resolve_channels; now rewrite Hneg).
  split; [exact Hres|]. split; [|split].
  - unfold loadFromMap. now rewrite Hres.
  - intros H. apply loadFromMap_name_error in H.
    destruct H as [(H & _)|(_ & H & _)]; [|congruence].
    now apply msg_bounds_channels.
  - intros (Hp & HR & HS & Hspc) Hs Hn Hsn.
    rewrite (load_selection_parsed _ _ _ Hp).
    rewrite loadFromMap_window; auto.
    + unfold selected_channels. now rewrite Hneg.
    + now apply (parsed_coherent Hp).
    + lia.
    + unfold valid_channels. now rewrite Hneg.
Qed.

Lemma C9_negative_entry_selects_all_witness :
  any_negative (ChanList [-1; 7]) = true
  /\ loadFromMap map_a info_a 30 4 (ChanList [-1; 7])
     = loadFromMap map_a info_a 30 4 (ChanInt (-1))
  /\ load_selection fs_a "a.sio" 30 4 (ChanList [-1; 7]) None
     = Ok (set_data info_a (squeeze (window map_a [0; 1]%nat 30 4))).
Proof.
  split; [reflexivity|].
  destruct (@C9_negative_entry_selects_all fs_a "a.sio" None info_a map_a
              30 4 (ChanList [-1; 7]) eq_refl)
    as (_ & Heq & _ & Hload).
  split; [exact Heq|].
  apply Hload.
  - split; [split; vm_compute; reflexivity|].
    repeat split; cbn [mm_records mm_samples map_a]; try lia.
    + vm_compute. lia.
    + vm_compute. discriminate.
  - lia.
  - lia.
  - vm_compute. discriminate.
Defined.

Lemma any_negative_py_range (n : Z) : any_negative (ChanList (py_range n)) = false.
Proof.
  unfold any_negative. cbn [sel_values].
  destruct (existsb _ _) eqn:E; [|reflexivity].
  apply existsb_exists in E. destruct E as (c & Hin & Hc).
  apply in_py_range in Hin. apply Z.ltb_lt in Hc. lia.
Qed.

Lemma any_at_least_py_range (n : Z) : any_at_least (ChanList (py_range n)) n = false.
Proof.
  unfold any_at_least. cbn [sel_values].
  destruct (existsb _ _) eqn:E; [|reflexivity].
  apply existsb_exists in E. destruct E as (c & Hin & Hc).
  apply in_py_range in Hin. apply Z.geb_le in Hc. lia.
Qed.

Lemma select_range_array (m : memmap) (rs re n : Z) :
  0 < n ->
  select m rs re (IndexArray (py_range n)) = select m rs re (IndexRange n).
Proof.
  intros Hn. unfold select.
  destruct (py_range n) as [|c l] eqn:E; [|reflexivity].
  apply (f_equal (@length Z)) in E. unfold py_range in E.
  rewrite length_map, length_seq in E. cbn in E. lia.
Qed.

(** The mixed selection [[-1; 7]] on a file of two channels: channel 7 does
    not exist, and the read succeeds all the same. *)
Lemma C5_mixed_selection_counterexample :
  parsed fs_a "a.sio" None info_a map_a
  /\ numChannels info_a = 2
  /\ any_at_least (ChanList [-1; 7]) (numChannels info_a) = true
  /\ load_selection fs_a "a.sio" 30 4 (ChanList [-1; 7]) None
     <> Err (NameError msg_channels)
  /\ exists r, load_selection fs_a "a.sio" 30 4 (ChanList [-1; 7]) None = Ok r.
Proof.
  split; [split; vm_compute; reflexivity|].
  split; [reflexivity|]. split; [reflexivity|]. split.
  - vm_compute. discriminate.
  - eexists. vm_compute. reflexivity.
Qed.

(** C5, amended. On a valid file and for a request whose time window is
    accepted: a selection holding a negative value means all channels, being
    read as the full range over the channel count; a selection without
    negative value in which some index is at least [numChannels] makes the
    reader fail with "Requested channels that do not exist". *)
Theorem C5_channel_selection (fs : filesystem) (name : string)
    (cn : option (list string)) (fi : FileInfo) (m : memmap)
    (sampleStart numSamples : Z) (channels : channel_sel) :
  valid_sio fs name cn fi m ->
  sampleStart < 0 \/ sampleStart + numSamples <= samplesPerChannel fi ->
  (any_negative channels = true ->
   load_selection fs name sampleStart numSamples channels cn
   = load_selection fs name sampleStart numSamples
       (ChanList (py_range (numChannels fi))) cn)
  /\ (any_negative channels = false ->
      any_at_least channels (numChannels fi) = true ->
      load_selection fs name sampleStart numSamples channels cn
      = Err (NameError msg_channels)).
Proof.
  intros (Hp & HR & HS & Hspc) Hwin.
  pose proof (parsed_coherent Hp) as (Hc & Hc0 & Hr & Hb & Hsam).
  rewrite !(load_selection_parsed _ _ _ Hp). split.
  - intros Hneg. unfold loadFromMap, resolve_channels.
    rewrite Hneg, any_negative_py_range, any_at_least_py_range.
    rewrite !np_int_div_ok by lia. cbn [bind].
    destruct (time_indices _ _ _ _ _) as [[[[rs re] a] b]|e]; [|reflexivity].
    cbn [bind]. now rewrite select_range_array.
  - intros Hneg Hge. unfold loadFromMap, resolve_channels.
    rewrite Hneg, Hge. rewrite !np_int_div_ok by lia. cbn [bind].
    rewrite Hr, Hsam. unfold time_indices.
    destruct (sampleStart <? 0) eqn:Es; [reflexivity|].
    apply Z.ltb_ge in Es.
    destruct (_ >? _) eqn:Eb; [apply Z.gtb_lt in Eb; lia|].
    destruct (Z.of_nat (mm_samples m) =? 0) eqn:Ez;
      [apply Z.eqb_eq in Ez; lia|].
    reflexivity.
Qed.

Lemma C5_channel_selection_witness :
  load_selection fs_a "a.sio" 30 4 (ChanList [0; 2]) None
  = Err (NameError msg_channels)
  /\ load_selection fs_a "a.sio" 30 4 (ChanList [-1; 7]) None
     = load_selection fs_a "a.sio" 30 4 (ChanList [0; 1]) None.
Proof.
  assert (Hv : valid_sio fs_a "a.sio" None info_a map_a).
  { split; [split; vm_compute; reflexivity|].
    repeat split; cbn [mm_records mm_samples map_a]; try lia.
    - vm_compute. lia.
    - vm_compute. discriminate. }
  assert (Hw : 30 < 0 \/ 30 + 4 <= samplesPerChannel info_a).
  { right. vm_compute. discriminate. }
  split.
  - apply (proj2 (@C5_channel_selection fs_a "a.sio" None info_a map_a 30 4
                    (ChanList [0; 2]) Hv Hw)); reflexivity.
  - apply (proj1 (@C5_channel_selection fs_a "a.sio" None info_a map_a 30 4
                    (ChanList [-1; 7]) Hv Hw)); reflexivity.
Defined.

(** ** Full loads and windows *)

(** The full load of the two-channel file [file_a], which announces 64
    samples per channel: the array has 63 rows and 2 columns. *)
Lemma C1_full_load_shape_counterexample :
  valid_sio fs_a "a.sio" None info_a map_a
  /\ samplesPerChannel info_a = 64
  /\ length (selected_channels info_a (ChanInt (-1))) = 2%nat
  /\ exists r d,
       load_selection fs_a "a.sio" (-1) 0 (ChanInt (-1)) None = Ok r
       /\ data r = Some d
       /\ shape d = [63; 2]%nat
       /\ shape d <> [2; 64]%nat.
Proof.
  split; [exact valid_a|]. split; [reflexivity|]. split; [reflexivity|].
  eexists. eexists. split; [vm_compute; reflexivity|].
  split; [reflexivity|]. split; [reflexivity|]. discriminate.
Qed.

(** C1, amended. For every valid SIO file and channel selection, the reader
    called with [sampleStart = -1] succeeds and returns the array laid out
    [time, channel] (axes of length one squeezed away): one column per
    selected channel, and one row per sample of the mapped records, except
    possibly the final sample; row [i] holds sample [i] of each selected
    channel. *)
Theorem C1_full_load_time_major (fs : filesystem) (name : string)
    (cn : option (list string)) (fi : FileInfo) (m : memmap)
    (numSamples : Z) (channels : channel_sel) :
  valid_sio fs name cn fi m ->
  valid_channels fi channels = true ->
  let cs := selected_channels fi channels in
  let total := (mm_records m * mm_samples m)%nat in
  exists d w,
    load_selection fs name (-1) numSamples channels cn = Ok (set_data fi d)
    /\ shape d = squeezed [w; length cs]
    /\ (total - 1 <= w <= total)%nat
    /\ length (elems d) = (w * length cs)%nat
    /\ forall i j, (i < w)%nat -> (j < length cs)%nat ->
         entry d (length cs) i j = channel_sample m (nth j cs 0%nat) i.
Proof.
  intros (Hp & HR & HS & Hspc) Hv cs total.
  rewrite (load_selection_parsed _ _ _ Hp).
  rewrite (loadFromMap_full _ _ (parsed_coherent Hp) ltac:(lia) Hv) by lia.
  destruct (mm_records m =? 0)%nat eqn:E; [apply Nat.eqb_eq in E; lia|].
  eexists. exists (total - 1)%nat. split; [reflexivity|].
  split; [apply squeeze_window_shape|].
  split; [lia|]. split; [apply squeeze_window_length|].
  intros i j Hi Hj. now rewrite squeeze_window_entry.
Qed.

Lemma C1_full_load_time_major_witness :
  valid_sio fs_a "a.sio" None info_a map_a
  /\ valid_channels info_a (ChanList [1]) = true
  /\ exists d w,
       load_selection fs_a "a.sio" (-1) 0 (ChanList [1]) None
       = Ok (set_data info_a d)
       /\ shape d = squeezed [w; 1]%nat
       /\ (2 * 32 - 1 <= w <= 2 * 32)%nat
       /\ length (elems d) = (w * 1)%nat
       /\ forall i j, (i < w)%nat -> (j < 1)%nat ->
            entry d 1 i j = channel_sample map_a (nth j [1%nat] 0%nat) i.
Proof.
  assert (Hv : valid_sio fs_a "a.sio" None info_a map_a).
  { split; [split; vm_compute; reflexivity|].
    repeat split; cbn [mm_records mm_samples map_a]; try lia.
    - vm_compute. lia.
    - vm_compute. discriminate. }
  split; [exact Hv|]. split; [reflexivity|].
  exact (@C1_full_load_time_major fs_a "a.sio" None info_a map_a 0
           (ChanList [1]) Hv eq_refl).
Defined.

(** A window of at least one sample inside the bounds, on a valid file: the
    array holds exactly the requested samples, read from the records the
    indices point at, and the last record read reaches past the window. *)
Lemma window_read_correct (fs : filesystem) (name : string)
    (cn : option (list string)) (fi : FileInfo) (m : memmap)
    (sampleStart numSamples : Z) (channels : channel_sel) :
  valid_sio fs name cn fi m ->
  valid_channels fi channels = true ->
  0 <= sampleStart -> 1 <= numSamples ->
  sampleStart + numSamples <= samplesPerChannel fi ->
  let cs := selected_channels fi channels in
  let S := Z.of_nat (mm_samples m) in
  exists d,
    load_selection fs name sampleStart numSamples channels cn
    = Ok (set_data fi d)
    /\ shape d = squeezed [Z.to_nat numSamples; length cs]
    /\ length (elems d) = (Z.to_nat numSamples * length cs)%nat
    /\ (forall i j, (i < Z.to_nat numSamples)%nat -> (j < length cs)%nat ->
          entry d (length cs) i j
          = channel_sample m (nth j cs 0%nat) (Z.to_nat sampleStart + i))
    /\ sampleStart + numSamples < ((sampleStart + numSamples) / S + 1) * S.
Proof.
  intros (Hp & HR & HS & Hspc) Hv Hs Hn Hsn cs S.
  rewrite (load_selection_parsed _ _ _ Hp).
  rewrite (loadFromMap_window _ (parsed_coherent Hp) ltac:(lia) Hv) by assumption.
  eexists. split; [reflexivity|].
  split; [apply squeeze_window_shape|].
  split; [apply squeeze_window_length|]. split.
  - intros i j Hi Hj. now rewrite squeeze_window_entry.
  - assert (HS0 : 0 < S) by (subst S; lia).
    pose proof (Z.div_mod (sampleStart + numSamples) S ltac:(lia)).
    pose proof (Z.mod_pos_bound (sampleStart + numSamples) S HS0). nia.
Qed.

Lemma selected_channels_lt (m : memmap) (fi : FileInfo) (channels : channel_sel) :
  coherent m fi ->
  valid_channels fi channels = true ->
  forall c, In c (selected_channels fi channels) -> (c < mm_channels m)%nat.
Proof.
  intros (Hc & Hc0 & _) Hv c Hin. unfold selected_channels, valid_channels in *.
  destruct (any_negative channels) eqn:Hneg.
  - apply in_seq in Hin. lia.
  - cbn [orb] in Hv. apply andb_true_iff in Hv. destruct Hv as [Hge _].
    apply negb_true_iff in Hge.
    apply in_map_iff in Hin. destruct Hin as (z & <- & Hz).
    pose proof (@any_negative_false _ _ Hneg Hz).
    pose proof (@any_at_least_false _ _ _ Hge Hz). lia.
Qed.

(** A window agrees with the full load of all channels at every position
    the full load holds, that is everywhere but at the file's final sample. *)
Lemma window_matches_full_load (fs : filesystem) (name : string)
    (cn : option (list string)) (fi : FileInfo) (m : memmap)
    (sampleStart numSamples : Z) (channels : channel_sel) :
  valid_sio fs name cn fi m ->
  valid_channels fi channels = true ->
  0 <= sampleStart -> 1 <= numSamples ->
  sampleStart + numSamples <= samplesPerChannel fi ->
  let cs := selected_channels fi channels in
  exists dw df,
    load_selection fs name sampleStart numSamples channels cn
    = Ok (set_data fi dw)
    /\ load_allChannels fs name cn = Ok (set_data fi df)
    /\ forall i j,
         (i < Z.to_nat numSamples)%nat -> (j < length cs)%nat ->
         (Z.to_nat sampleStart + i < mm_records m * mm_samples m - 1)%nat ->
         entry dw (length cs) i j
         = entry df (mm_channels m) (Z.to_nat sampleStart + i) (nth j cs 0%nat).
Proof.
  intros Hvs Hv Hs Hn Hsn cs.
  destruct (window_read_correct channels Hvs Hv Hs Hn Hsn)
    as (dw & Hw & _ & _ & Hent & _).
  destruct Hvs as (Hp & HR & HS & Hspc).
  pose proof (parsed_coherent Hp) as Hcoh.
  exists dw. eexists. split; [exact Hw|].
  unfold load_allChannels. rewrite (load_selection_parsed _ _ _ Hp).
  rewrite (@loadFromMap_full m fi (-1) 0 (ChanInt (-1)) Hcoh ltac:(lia))
    by (reflexivity || lia).
  destruct (mm_records m =? 0)%nat eqn:E; [apply Nat.eqb_eq in E; lia|].
  split; [reflexivity|].
  intros i j Hi Hj Hpos. rewrite Hent by assumption.
  assert (Hc : (nth j cs 0 < mm_channels m)%nat)
    by (apply (selected_channels_lt channels Hcoh Hv), nth_In, Hj).
  unfold selected_channels at 1. cbn [any_negative sel_values existsb Z.ltb Z.compare orb].
  destruct Hcoh as (Hnc & _).
  replace (mm_channels m) with (length (seq 0 (Z.to_nat (numChannels fi))))
    by (rewrite length_seq; lia).
  rewrite squeeze_window_entry.
  - rewrite seq_nth by lia. reflexivity.
  - assumption.
  - rewrite length_seq. lia.
Qed.

(** C2. On [file_a] (two channels, 64 samples per channel) the window
    [32, 64) of channel 0 is read in full, its last entry being the file's
    sample 63 of that channel (the number 95); the full load of the same file
    has 63 rows only, the last one holding sample 62 (the number 94), so
    that position 63 of the full load does not exist. *)
Theorem C2_window_reaches_past_full_load :
  valid_sio fs_a "a.sio" None info_a map_a
  /\ 32 + 32 <= samplesPerChannel info_a
  /\ exists w f dw df,
       load_selection fs_a "a.sio" 32 32 (ChanInt 0) None = Ok w
       /\ data w = Some dw
       /\ load_allChannels fs_a "a.sio" None = Ok f
       /\ data f = Some df
       /\ shape dw = [32]%nat
       /\ entry dw 1 31 0 = i4_bytes 95
       /\ shape df = [63; 2]%nat
       /\ length (elems df) = 126%nat
       /\ entry df 2 62 0 = i4_bytes 94.
Proof.
  split; [exact valid_a|]. split; [vm_compute; discriminate|].
  do 4 eexists.
  split; [vm_compute; reflexivity|]. split; [reflexivity|].
  split; [vm_compute; reflexivity|]. split; [reflexivity|].
  repeat split.
Qed.

(** ** The start of the mapped body *)

(** [file_b] has records of 256 bytes: its map starts at byte 256. *)
Lemma C3_body_offset_counterexample :
  parsed fs_b "b.sio" None info_b map_b
  /\ recordLength info_b = 256
  /\ mm_offset map_b = 256%nat
  /\ mm_position map_b 0 0 0 = 256%nat
  /\ mm_position map_b 0 0 0 <> 128%nat.
Proof.
  split; [exact parsed_b|]. repeat split. discriminate.
Qed.

(** C3, amended. For every file that parses and maps, the mapped body begins
    at the byte offset equal to the size of one record,
    [(recordLength / bytesPerPoint) * bytesPerPoint] with the quotient
    truncated, which is [recordLength] when [bytesPerPoint] divides it: the
    header is taken to fill the first record.  The first sample exposed by
    the map is read at that offset, which is byte 128 exactly when the
    record size is 128 bytes. *)
Theorem C3_body_starts_after_one_record (fs : filesystem) (name : string)
    (cn : option (list string)) (fi : FileInfo) (m : memmap) :
  parsed fs name cn fi m ->
  Z.of_nat (mm_offset m)
  = Z.quot (recordLength fi) (bytesPerPoint fi) * bytesPerPoint fi
  /\ (recordLength fi mod bytesPerPoint fi = 0 ->
      Z.of_nat (mm_offset m) = recordLength fi)
  /\ mm_position m 0 0 0 = mm_offset m
  /\ mm_sample m 0 0 0
     = firstn (Z.to_nat (bytesPerPoint fi)) (skipn (mm_offset m) (mm_file m))
  /\ fs name = Some (mm_file m)
  /\ (mm_offset m = 128%nat
      <-> Z.quot (recordLength fi) (bytesPerPoint fi) * bytesPerPoint fi = 128).
Proof.
  intros [Hh Hm].
  destruct (createSIOMap_inv _ _ Hm)
    as (file & Hfs & Hc & Hb & Hr & Hc0 & Hlen & ->).
  destruct (load_header_scalar_size _ _ _ Hh) as (Hsz & Hsub & Hq & _ & Hname).
  cbn [mm_offset mm_file].
  assert (Hoff : Z.of_nat (itemsize (recordType fi))
                 = Z.quot (recordLength fi) (bytesPerPoint fi) * bytesPerPoint fi).
  { unfold itemsize. rewrite Nat2Z.inj_mul, Hsz, Hsub. lia. }
  split; [exact Hoff|]. split; [|split; [|split; [|split]]].
  - intros Hmod. rewrite Hoff.
    assert (Hbpp : 0 < bytesPerPoint fi) by lia.
    destruct (Z.le_gt_cases 0 (recordLength fi)) as [Hrl|Hrl].
    + rewrite Z.quot_div_nonneg by lia.
      pose proof (Z.div_mod (recordLength fi) (bytesPerPoint fi) ltac:(lia)). lia.
    + exfalso.
      pose proof (Z.quot_rem' (recordLength fi) (bytesPerPoint fi)) as Hqr.
      assert (Hrem : - bytesPerPoint fi < Z.rem (recordLength fi) (bytesPerPoint fi) <= 0)
        by (apply Z.rem_bound_pos_neg; lia).
      assert (Hq0 : Z.quot (recordLength fi) (bytesPerPoint fi) = 0) by nia.
      rewrite Hq0 in Hqr.
      assert (Hm1 : (recordLength fi + 1 * bytesPerPoint fi) mod bytesPerPoint fi
                    = recordLength fi + 1 * bytesPerPoint fi)
        by (apply Z.mod_small; lia).
      rewrite Z.mod_add in Hm1 by lia. lia.
  - unfold mm_position. cbn [mm_offset mm_channels]. lia.
  - unfold mm_sample, mm_position. cbn [mm_offset mm_file mm_dtype mm_channels].
    rewrite <- Hsz, Nat2Z.id. do 2 f_equal. lia.
  - now rewrite <- Hname.
  - rewrite <- Hoff. lia.
Qed.

Lemma C3_body_starts_after_one_record_witness :
  parsed fs_b "b.sio" None info_b map_b
  /\ Z.of_nat (mm_offset map_b)
     = Z.quot (recordLength info_b) (bytesPerPoint info_b) * bytesPerPoint info_b.
Proof.
  assert (Hp : parsed fs_b "b.sio" None info_b map_b)
    by (split; vm_compute; reflexivity).
  split; [exact Hp|].
  exact (proj1 (@C3_body_starts_after_one_record fs_b "b.sio" None info_b map_b Hp)).
Defined.

(** ** Requests for no sample *)

(** Two requests for no sample on [file_a], both starting on a record
    boundary: at sample 64, the end of the file, the bounds check passes and
    the read fails for want of a record; at sample 96 the bounds check
    fails. *)
Lemma C10_zero_window_counterexample :
  valid_sio fs_a "a.sio" None info_a map_a
  /\ Z.of_nat (mm_samples map_a) = 32
  /\ 64 mod 32 = 0 /\ 96 mod 32 = 0
  /\ 64 + 0 <= samplesPerChannel info_a
  /\ load_selection fs_a "a.sio" 64 0 (ChanInt 0) None = Err no_arrays
  /\ load_selection fs_a "a.sio" 96 0 (ChanInt 0) None = Err (NameError msg_bounds).
Proof.
  split; [exact valid_a|]. repeat split. vm_compute. discriminate.
Qed.

(** C10, amended. On a valid file, for a request with [numSamples = 0] that
    passes the bounds check: if [sampleStart] is a multiple of the samples
    per record and lies inside the mapped records, the computed end offset
    is zero, the full-range trim is applied and the reader returns
    [samplesPerRecord - 1] samples per channel, the samples from
    [sampleStart] on, instead of an empty window; if [sampleStart] is not a
    multiple of the samples per record, it returns no sample. *)
Theorem C10_zero_length_window (fs : filesystem) (name : string)
    (cn : option (list string)) (fi : FileInfo) (m : memmap)
    (sampleStart : Z) (channels : channel_sel) :
  valid_sio fs name cn fi m ->
  valid_channels fi channels = true ->
  0 <= sampleStart <= samplesPerChannel fi ->
  let cs := selected_channels fi channels in
  let S := Z.of_nat (mm_samples m) in
  let R := Z.of_nat (mm_records m) in
  (sampleStart mod S = 0 -> sampleStart < R * S ->
   (exists rs re, time_indices fi R S sampleStart 0 = Ok (rs, re, 0, 0))
   /\ exists d,
       load_selection fs name sampleStart 0 channels cn = Ok (set_data fi d)
       /\ shape d = squeezed [mm_samples m - 1; length cs]%nat
       /\ length (elems d) = ((mm_samples m - 1) * length cs)%nat
       /\ forall i j, (i < mm_samples m - 1)%nat -> (j < length cs)%nat ->
            entry d (length cs) i j
            = channel_sample m (nth j cs 0%nat) (Z.to_nat sampleStart + i))
  /\ (sampleStart mod S <> 0 ->
      exists d,
        load_selection fs name sampleStart 0 channels cn = Ok (set_data fi d)
        /\ shape d = squeezed [0; length cs]%nat
        /\ elems d = []).
Proof.
  intros (Hp & HR & HS & Hspc) Hv Hs cs S R.
  pose proof (parsed_coherent Hp) as Hcoh.
  assert (HS0 : 0 < S) by (subst S; lia).
  assert (HRS : Z.of_nat (mm_records m * mm_samples m) = R * S)
    by (subst R S; lia).
  rewrite (load_selection_parsed _ _ _ Hp).
  split.
  - intros Hmod Hin. split.
    + do 2 eexists. rewrite time_indices_inside by lia.
      now rewrite Hmod.
    + rewrite (loadFromMap_empty _ Hcoh Hv) by lia.
      destruct (_ =? _) eqn:E; [apply Z.eqb_eq in E; lia|].
      fold S. rewrite Hmod. cbn [Z.eqb].
      eexists. split; [reflexivity|].
      split; [apply squeeze_window_shape|].
      split; [apply squeeze_window_length|].
      intros i j Hi Hj. now rewrite squeeze_window_entry.
  - intros Hmod.
    assert (Hne : sampleStart <> R * S).
    { intros ->. apply Hmod. apply Z.mod_mul. lia. }
    rewrite (loadFromMap_empty _ Hcoh Hv) by lia.
    destruct (_ =? _) eqn:E; [apply Z.eqb_eq in E; lia|].
    fold S. destruct (sampleStart mod S =? 0) eqn:E0;
      [apply Z.eqb_eq in E0; contradiction|].
    eexists. split; [reflexivity|]. split; reflexivity.
Qed.

Lemma C10_zero_length_window_witness :
  valid_sio fs_a "a.sio" None info_a map_a
  /\ (exists d,
        load_selection fs_a "a.sio" 32 0 (ChanList [0; 1]) None
        = Ok (set_data info_a d)
        /\ shape d = [31; 2]%nat)
  /\ (exists d,
        load_selection fs_a "a.sio" 33 0 (ChanList [0; 1]) None
        = Ok (set_data info_a d)
        /\ shape d = [0; 2]%nat
        /\ elems d = []).
Proof.
  assert (Hv : valid_sio fs_a "a.sio" None info_a map_a).
  { split; [split; vm_compute; reflexivity|].
    repeat split; cbn [mm_records mm_samples map_a]; try lia.
    - vm_compute. lia.
    - vm_compute. discriminate. }
  split; [exact Hv|]. split.
  - destruct (@C10_zero_length_window fs_a "a.sio" None info_a map_a 32
                (ChanList [0; 1]) Hv eq_refl) as [Haligned _].
    + vm_compute. split; discriminate.
    + destruct Haligned as (_ & d & Hd & Hshape & _).
      * reflexivity.
      * reflexivity.
      * exists d. split; [exact Hd|exact Hshape].
  - destruct (@C10_zero_length_window fs_a "a.sio" None info_a map_a 33
                (ChanList [0; 1]) Hv eq_refl) as [_ Hunaligned].
    + vm_compute. split; discriminate.
    + destruct Hunaligned as (d & Hd & Hshape & Hel).
      * discriminate.
      * exists d. split; [exact Hd|]. split; [exact Hshape|exact Hel].
Defined.

(** ** Format errors *)

Lemma header_fields_of (file : list byte) (name : string)
    (cn : option (list string)) (be : bool) (dt : scalar_dtype) :
  header_fields (header_of file name cn be dt)
  = if be then map byteswap (raw_header file) else raw_header file.
Proof. destruct be; reflexivity. Qed.

Lemma chunks_firstn (size count : nat) (bs : list byte) :
  chunks size count (firstn (count * size) bs) = chunks size count bs.
Proof.
  revert bs; induction count as [|count IH]; intros bs; [reflexivity|].
  cbn [chunks Nat.mul]. rewrite firstn_firstn.
  replace (Nat.min size (size + count * size)) with size by lia.
  f_equal. rewrite <- (IH (skipn size bs)). f_equal.
  rewrite skipn_firstn_comm. f_equal. lia.
Qed.

(** The header integers depend on the first 32 bytes only. *)
Lemma raw_header_firstn (file file' : list byte) :
  firstn 32 file' = firstn 32 file -> raw_header file' = raw_header file.
Proof.
  intros H. unfold raw_header.
  rewrite <- (chunks_firstn 4 8 file), <- (chunks_firstn 4 8 file').
  cbn [Nat.mul Nat.add]. now rewrite H.
Qed.

Lemma detect_big_endian_cases (check : Z) :
  (check = 32677 /\ detect_big_endian check = Ok false)
  \/ (check <> 32677 /\ byteswap check = 32677
      /\ detect_big_endian check = Ok true)
  \/ (check <> 32677 /\ byteswap check <> 32677
      /\ detect_big_endian check = Err (NameError msg_byte_order)).
Proof.
  unfold detect_big_endian.
  destruct (check =? 32677) eqn:E1; cbn [negb].
  - apply Z.eqb_eq in E1. now left.
  - apply Z.eqb_neq in E1. right.
    destruct (byteswap check =? 32677) eqn:E2.
    + apply Z.eqb_eq in E2. now left.
    + apply Z.eqb_neq in E2. now right.
Qed.

(** C6. [load_header] decides the byte order on the 8th header integer.  If
    it is 32677 the header is taken as it is and the sample type is
    little-endian; if it is not but its byte-swapped form is, all eight
    fields are byte-swapped and the sample type is big-endian; otherwise
    parsing fails with "Unknown byte order".  In the first two cases the
    byte-order error is not raised. *)
Theorem C6_byte_order_detection (fs : filesystem) (name : string)
    (cn : option (list string)) (file : list byte) :
  fs name = Some file ->
  (32 <= length file)%nat ->
  let raw := raw_header file in
  let check := nth 7 raw 0 in
  (check = 32677 ->
   load_header fs name cn <> Err (NameError msg_byte_order)
   /\ forall fi, load_header fs name cn = Ok fi ->
        header_fields fi = raw
        /\ bigEndian (base (recordType fi)) = false)
  /\ (check <> 32677 -> byteswap check = 32677 ->
      load_header fs name cn <> Err (NameError msg_byte_order)
      /\ forall fi, load_header fs name cn = Ok fi ->
           header_fields fi = map byteswap raw
           /\ endianCheck fi = 32677
           /\ bigEndian (base (recordType fi)) = true)
  /\ (check <> 32677 -> byteswap check <> 32677 ->
      load_header fs name cn = Err (NameError msg_byte_order)).
Proof.
  intros Hfs Hlen raw check.
  assert (Hinv : forall fi be,
            detect_big_endian check = Ok be ->
            load_header fs name cn = Ok fi ->
            header_fields fi = (if be then map byteswap raw else raw)
            /\ bigEndian (base (recordType fi)) = be).
  { intros fi be Hbe H.
    destruct (load_header_inv _ _ _ H)
      as (file' & be' & dt & Hfs' & _ & Hbe' & Hdt & _ & ->).
    assert (file' = file) by congruence. subst file'.
    fold raw check in Hbe'. assert (be' = be) by congruence. subst be'.
    split; [apply header_fields_of|].
    apply data_type_of_inv in Hdt.
    destruct Hdt as [[_ ->]|[_ ->]]; destruct be; reflexivity. }
  assert (Hnoerr : forall be,
            detect_big_endian check = Ok be ->
            load_header fs name cn <> Err (NameError msg_byte_order)).
  { intros be Hbe. rewrite (load_header_unfold fs name cn Hfs Hlen).
    fold raw check. rewrite Hbe. cbn [bind].
    unfold data_type_of.
    destruct (_ =? 4); cbn [bind];
      [|destruct (_ =? 2); cbn [bind]; [|discriminate]];
      destruct (_ <? 0); discriminate. }
  destruct (detect_big_endian_cases check)
    as [[Hc Hd]|[(Hc & Hs & Hd)|(Hc & Hs & Hd)]].
  - split; [|split]; try (intros; contradiction).
    intros _. split; [now apply (Hnoerr false)|].
    intros fi H. now apply (Hinv fi false).
  - split; [|split]; try (intros; contradiction).
    intros _ _. split; [now apply (Hnoerr true)|].
    intros fi H. destruct (Hinv fi true Hd H) as [Hf He].
    split; [exact Hf|]. split; [|exact He].
    change (endianCheck fi) with (nth 7 (header_fields fi) 0).
    rewrite Hf. subst raw. rewrite map_byteswap_eight by reflexivity.
    exact Hs.
  - split; [|split]; try (intros; contradiction).
    intros _ _. rewrite (load_header_unfold fs name cn Hfs Hlen).
    fold raw check. now rewrite Hd.
Qed.

Lemma C6_byte_order_detection_witness :
  fs_be "be.sio"%string = Some file_be
  /\ (32 <= length file_be)%nat
  /\ nth 7 (raw_header file_be) 0 <> 32677
  /\ byteswap (nth 7 (raw_header file_be) 0) = 32677
  /\ forall fi, load_header fs_be "be.sio" None = Ok fi ->
       header_fields fi = map byteswap (raw_header file_be)
       /\ endianCheck fi = 32677
       /\ bigEndian (base (recordType fi)) = true.
Proof.
  split; [reflexivity|]. split; [vm_compute; lia|].
  split; [vm_compute; discriminate|]. split; [vm_compute; reflexivity|].
  apply (proj1 (proj2 (@C6_byte_order_detection fs_be "be.sio" None file_be
                         eq_refl ltac:(vm_compute; lia)))).
  - vm_compute. discriminate.
  - vm_compute. reflexivity.
Defined.

(** The big-endian copy of [file_a] parses to the same eight fields, with a
    big-endian sample type. *)
Example load_header_be :
  exists fi,
    load_header fs_be "be.sio" None = Ok fi
    /\ header_fields fi = header_fields info_a
    /\ header_fields fi = [0; 4; 128; 2; 4; 1; 64; 32677]
    /\ base (recordType fi) = {| kind := Float32; bigEndian := true |}.
Proof. eexists. split; [vm_compute; reflexivity|]. repeat split. Qed.

(** C7. For a header that passes the byte-order check: with
    [bytesPerPoint = 4] the sample type is the 32-bit float, with
    [bytesPerPoint = 2] the 16-bit integer, and in both cases the data-type
    error is not raised; with any other value [load_header] raises "unknown
    data type", and so does [load_selection], whatever the request and
    whatever the file holds after its first 32 bytes: the error is decided
    on the header alone, before the map is made and any record read. *)
Theorem C7_sample_type (fs : filesystem) (name : string)
    (cn : option (list string)) (file : list byte) (be : bool) :
  fs name = Some file ->
  (32 <= length file)%nat ->
  detect_big_endian (nth 7 (raw_header file) 0) = Ok be ->
  let header := if be then map byteswap (raw_header file) else raw_header file in
  let bpp := nth 4 header 0 in
  (bpp = 4 ->
   load_header fs name cn <> Err (NameError msg_data_type)
   /\ forall fi, load_header fs name cn = Ok fi ->
        bytesPerPoint fi = 4 /\ kind (base (recordType fi)) = Float32)
  /\ (bpp = 2 ->
      load_header fs name cn <> Err (NameError msg_data_type)
      /\ forall fi, load_header fs name cn = Ok fi ->
           bytesPerPoint fi = 2 /\ kind (base (recordType fi)) = Int16)
  /\ (bpp <> 4 -> bpp <> 2 ->
      load_header fs name cn = Err (NameError msg_data_type)
      /\ forall sampleStart numSamples channels,
           load_selection fs name sampleStart numSamples channels cn
           = Err (NameError msg_data_type)
           /\ forall fs' file',
                fs' name = Some file' ->
                firstn 32 file' = firstn 32 file ->
                (32 <= length file')%nat ->
                load_selection fs' name sampleStart numSamples channels cn
                = Err (NameError msg_data_type)).
Proof.
  intros Hfs Hlen Hbe header bpp.
  assert (Hun : forall fs' file',
            fs' name = Some file' ->
            firstn 32 file' = firstn 32 file ->
            (32 <= length file')%nat ->
            load_header fs' name cn =
              (dt <- data_type_of bpp ;;
               if Z.quot (recordLength (header_of file' name cn be dt))
                         (bytesPerPoint (header_of file' name cn be dt)) <? 0
               then Err (ValueError "invalid shape in fixed-type tuple: dimension smaller then zero.")
               else Ok (header_of file' name cn be dt))).
  { intros fs' file' Hfs' Hfirst Hlen'.
    rewrite (load_header_unfold fs' name cn Hfs' Hlen').
    unfold header_of at 1. cbn [bytesPerPoint].
    rewrite (raw_header_firstn _ _ Hfirst), Hbe. reflexivity. }
  pose proof (Hun fs file Hfs eq_refl Hlen) as Hh.
  assert (Hkind : forall v k dt,
            bpp = v -> data_type_of v = Ok dt -> kind dt = k ->
            load_header fs name cn <> Err (NameError msg_data_type)
            /\ forall fi, load_header fs name cn = Ok fi ->
                 bytesPerPoint fi = v /\ kind (base (recordType fi)) = k).
  { intros v k dt Hv Hdt Hk. rewrite Hh, Hv, Hdt. cbn [bind].
    destruct (_ <? 0); [split; [discriminate|discriminate]|].
    split; [discriminate|]. intros fi Hfi. injection Hfi as <-.
    split; [exact Hv|]. cbn [header_of recordType base].
    destruct be; [cbn [newbyteorder kind]|]; exact Hk. }
  split; [|split].
  - intros H4. now apply (Hkind 4 Float32 f4_le).
  - intros H2. now apply (Hkind 2 Int16 i2_le).
  - intros H4 H2.
    assert (Hdt : data_type_of bpp = Err (NameError msg_data_type)).
    { unfold data_type_of. apply Z.eqb_neq in H4, H2. now rewrite H4, H2. }
    split; [now rewrite Hh, Hdt|].
    intros sampleStart numSamples channels. split.
    + unfold load_selection. now rewrite Hh, Hdt.
    + intros fs' file' Hfs' Hfirst Hlen'. unfold load_selection.
      now rewrite (Hun fs' file' Hfs' Hfirst Hlen'), Hdt.
Qed.

Lemma C7_sample_type_witness :
  fs_wide "w.sio"%string = Some file_wide
  /\ (32 <= length file_wide)%nat
  /\ detect_big_endian (nth 7 (raw_header file_wide) 0) = Ok false
  /\ nth 4 (raw_header file_wide) 0 = 8
  /\ load_header fs_wide "w.sio" None = Err (NameError msg_data_type)
  /\ load_selection fs_wide "w.sio" 0 4 (ChanInt 0) None
     = Err (NameError msg_data_type).
Proof.
  split; [reflexivity|]. split; [vm_compute; lia|].
  split; [reflexivity|]. split; [reflexivity|].
  destruct (@C7_sample_type fs_wide "w.sio" None file_wide false
              eq_refl ltac:(vm_compute; lia) eq_refl)
    as (_ & _ & Hother).
  destruct Hother as [Hh Hsel].
  - vm_compute. discriminate.
  - vm_compute. discriminate.
  - split; [exact Hh|]. apply Hsel.
Defined.

(** * Further properties *)

(** ** The reader *)

(** X1. With a negative [sampleStart] the reader ignores [numSamples] and the
    value of [sampleStart] itself: every such request is the request
    [(-1, 0)] of [load_allChannels]. *)
Theorem negative_start_ignores_count (fs : filesystem) (name : string)
    (cn : option (list string)) (sampleStart numSamples : Z)
    (channels : channel_sel) :
  sampleStart < 0 ->
  load_selection fs name sampleStart numSamples channels cn
  = load_selection fs name (-1) 0 channels cn.
Proof.
  intros Hs. unfold load_selection.
  destruct (load_header fs name cn) as [fi|e]; [|reflexivity]. cbn [bind].
  destruct (createSIOMap fs fi) as [m|e]; [|reflexivity]. cbn [bind].
  unfold loadFromMap, time_indices.
  apply Z.ltb_lt in Hs. now rewrite Hs.
Qed.

Lemma negative_start_ignores_count_witness :
  -7 < 0
  /\ load_selection fs_a "a.sio" (-7) 12 (ChanInt 1) None
     = load_selection fs_a "a.sio" (-1) 0 (ChanInt 1) None.
Proof.
  split; [lia|].
  apply (@negative_start_ignores_count fs_a "a.sio" None (-7) 12 (ChanInt 1)).
  lia.
Defined.

(** X2. A single channel number and the list holding that one number give the
    same result, error or array: the two concatenations of lines 56 to 59
    agree. *)
Theorem scalar_channel_same_as_singleton (m : memmap) (fi : FileInfo)
    (sampleStart numSamples c : Z) :
  loadFromMap m fi sampleStart numSamples (ChanInt c)
  = loadFromMap m fi sampleStart numSamples (ChanList [c]).
Proof.
  unfold loadFromMap.
  destruct (np_int_div (numRecords fi) _) as [R|e]; [|reflexivity].
  destruct (np_int_div (recordLength fi) _) as [S|e]; [|reflexivity].
  cbn [bind].
  destruct (time_indices _ _ _ _ _) as [[[[rs re] a] b]|e]; [|reflexivity].
  cbn [bind]. unfold resolve_channels, any_negative, any_at_least.
  cbn [sel_values].
  destruct (existsb _ [c]); [reflexivity|].
  destruct (existsb _ [c]); [reflexivity|].
  cbn [bind]. unfold select.
  destruct (mm_samples m =? 1)%nat; [reflexivity|].
  cbn [mapM]. destruct (channel_position m c) as [c'|e]; [|reflexivity].
  cbn [bind]. rewrite py_slice_seq.
  rewrite concatenate_sel2.
  rewrite (concatenate_sel3 m [c']). reflexivity.
Qed.

(** X3. [load_allChannels] on a file that parses and maps, with at least one
    record per channel and more than one sample per record: the array has
    one column per channel of the file and [recPerChan * samPerRec - 1]
    rows, row [i] holding sample [i] of every channel.  The last sample of
    each channel is not returned, and the header's [samplesPerChannel] plays
    no part. *)
Theorem full_load_all_but_last (fs : filesystem) (name : string)
    (cn : option (list string)) (fi : FileInfo) (m : memmap) :
  parsed fs name cn fi m ->
  (1 <= mm_records m)%nat ->
  (2 <= mm_samples m)%nat ->
  let rows := (mm_records m * mm_samples m - 1)%nat in
  exists d,
    load_allChannels fs name cn = Ok (set_data fi d)
    /\ shape d = squeezed [rows; mm_channels m]
    /\ length (elems d) = (rows * mm_channels m)%nat
    /\ forall i c, (i < rows)%nat -> (c < mm_channels m)%nat ->
         entry d (mm_channels m) i c
         = mm_sample m (i / mm_samples m) c (i mod mm_samples m).
Proof.
  intros Hp HR HS rows.
  pose proof (parsed_coherent Hp) as Hcoh.
  unfold load_allChannels. rewrite (load_selection_parsed _ _ _ Hp).
  rewrite (@loadFromMap_full m fi (-1) 0 (ChanInt (-1)) Hcoh ltac:(lia))
    by (reflexivity || lia).
  destruct (mm_records m =? 0)%nat eqn:E; [apply Nat.eqb_eq in E; lia|].
  destruct Hcoh as (Hnc & _).
  assert (Hcs : selected_channels fi (ChanInt (-1)) = seq 0 (mm_channels m)).
  { unfold selected_channels. cbn. f_equal. lia. }
  rewrite Hcs.
  assert (Hk : length (seq 0 (mm_channels m)) = mm_channels m)
    by apply length_seq.
  eexists. split; [reflexivity|].
  rewrite squeeze_window_shape, squeeze_window_length, Hk.
  split; [reflexivity|]. split; [reflexivity|].
  intros i c Hi Hc.
  pose proof (@squeeze_window_entry m (seq 0 (mm_channels m)) 0 rows i c Hi
                ltac:(rewrite Hk; exact Hc)) as He.
  rewrite Hk, seq_nth in He by assumption. exact He.
Qed.

Lemma full_load_all_but_last_witness :
  parsed fs_a "a.sio" None info_a map_a
  /\ exists d,
       load_allChannels fs_a "a.sio" None = Ok (set_data info_a d)
       /\ shape d = [63; 2]%nat
       /\ length (elems d) = 126%nat.
Proof.
  assert (Hp : parsed fs_a "a.sio" None info_a map_a)
    by (split; vm_compute; reflexivity).
  split; [exact Hp|].
  destruct (@full_load_all_but_last fs_a "a.sio" None info_a map_a Hp)
    as (d & Hd & Hshape & Hlen & _).
  - cbn. lia.
  - cbn. lia.
  - exists d. split; [exact Hd|]. split; [exact Hshape|exact Hlen].
Defined.

(** X4. A window of at least one sample inside the bounds of a valid file: the
    array is laid out [time, channel], its columns follow the requested
    channels in the order they were given, and entry [(i, j)] is the sample
    the map holds for channel [channels[j]] in record
    [(sampleStart + i) / samPerRec] at place [(sampleStart + i) mod samPerRec]. *)
Theorem window_holds_requested_samples (fs : filesystem) (name : string)
    (cn : option (list string)) (fi : FileInfo) (m : memmap)
    (sampleStart numSamples : Z) (l : list Z) :
  valid_sio fs name cn fi m ->
  valid_channels fi (ChanList l) = true ->
  any_negative (ChanList l) = false ->
  0 <= sampleStart -> 1 <= numSamples ->
  sampleStart + numSamples <= samplesPerChannel fi ->
  exists d,
    load_selection fs name sampleStart numSamples (ChanList l) cn
    = Ok (set_data fi d)
    /\ length (elems d) = (Z.to_nat numSamples * length l)%nat
    /\ forall i j, (i < Z.to_nat numSamples)%nat -> (j < length l)%nat ->
         let q := (Z.to_nat sampleStart + i)%nat in
         entry d (length l) i j
         = mm_sample m (q / mm_samples m) (Z.to_nat (nth j l 0))
                     (q mod mm_samples m).
Proof.
  intros (Hp & HR & HS & Hspc) Hv Hneg Hs Hn Hsn.
  rewrite (load_selection_parsed _ _ _ Hp).
  rewrite (loadFromMap_window _ (parsed_coherent Hp) ltac:(lia) Hv) by assumption.
  assert (Hcs : selected_channels fi (ChanList l) = map Z.to_nat l).
  { unfold selected_channels. now rewrite Hneg. }
  rewrite Hcs.
  assert (Hk : length (map Z.to_nat l) = length l) by apply length_map.
  eexists. split; [reflexivity|]. rewrite squeeze_window_length, Hk.
  split; [reflexivity|].
  intros i j Hi Hj q.
  pose proof (@squeeze_window_entry m (map Z.to_nat l) (Z.to_nat sampleStart)
                (Z.to_nat numSamples) i j Hi ltac:(rewrite Hk; exact Hj)) as He.
  rewrite Hk in He. rewrite He. unfold channel_sample. fold q. f_equal.
  rewrite (nth_indep _ 0%nat (Z.to_nat 0)) by (rewrite Hk; assumption).
  apply map_nth.
Qed.

Lemma window_holds_requested_samples_witness :
  valid_sio fs_a "a.sio" None info_a map_a
  /\ exists d,
       load_selection fs_a "a.sio" 30 4 (ChanList [1; 0]) None
       = Ok (set_data info_a d)
       /\ length (elems d) = 8%nat
       /\ entry d 2 3 0 = mm_sample map_a 1 1 1.
Proof.
  assert (Hv : valid_sio fs_a "a.sio" None info_a map_a).
  { split; [split; vm_compute; reflexivity|].
    repeat split; cbn [mm_records mm_samples map_a]; try lia.
    - vm_compute. lia.
    - vm_compute. discriminate. }
  split; [exact Hv|].
  destruct (@window_holds_requested_samples fs_a "a.sio" None info_a map_a
              30 4 [1; 0] Hv eq_refl eq_refl)
    as (d & Hd & Hlen & Hent).
  - lia.
  - lia.
  - vm_compute. discriminate.
  - exists d. split; [exact Hd|]. split; [exact Hlen|].
    apply (Hent 3%nat 0%nat); cbn; lia.
Defined.

Lemma map_seq_from {A : Type} (f : nat -> A) (a b : nat) :
  map f (seq a b) = map (fun i => f (a + i)%nat) (seq 0 b).
Proof.
  revert a; induction b as [|b IH]; intros a; [reflexivity|].
  cbn [seq map]. f_equal; [f_equal; lia|].
  rewrite (IH (S a)), <- (seq_shift b 0), map_map.
  apply map_ext. intros i. f_equal. lia.
Qed.

(** X5. Two windows that follow each other make the window that spans both: the
    elements of the long read are those of the first read followed by those
    of the second. *)
Theorem adjacent_windows_compose (fs : filesystem) (name : string)
    (cn : option (list string)) (fi : FileInfo) (m : memmap)
    (sampleStart n1 n2 : Z) (channels : channel_sel) :
  valid_sio fs name cn fi m ->
  valid_channels fi channels = true ->
  0 <= sampleStart -> 1 <= n1 -> 1 <= n2 ->
  sampleStart + n1 + n2 <= samplesPerChannel fi ->
  exists d1 d2 d,
    load_selection fs name sampleStart n1 channels cn = Ok (set_data fi d1)
    /\ load_selection fs name (sampleStart + n1) n2 channels cn
       = Ok (set_data fi d2)
    /\ load_selection fs name sampleStart (n1 + n2) channels cn
       = Ok (set_data fi d)
    /\ elems d = elems d1 ++ elems d2.
Proof.
  intros (Hp & HR & HS & Hspc) Hv Hs H1 H2 Hsn.
  pose proof (parsed_coherent Hp) as Hcoh.
  rewrite !(load_selection_parsed _ _ _ Hp).
  rewrite !(loadFromMap_window _ Hcoh ltac:(lia) Hv) by lia.
  do 3 eexists. split; [reflexivity|]. split; [reflexivity|].
  split; [reflexivity|].
  unfold squeeze, window. cbn [elems cells].
  replace (Z.to_nat (n1 + n2)) with (Z.to_nat n1 + Z.to_nat n2)%nat by lia.
  rewrite seq_app, map_app, concat_app. f_equal. f_equal.
  cbn [Nat.add]. rewrite map_seq_from.
  apply map_ext. intros i. apply map_ext. intros c. f_equal. lia.
Qed.

Lemma adjacent_windows_compose_witness :
  valid_sio fs_a "a.sio" None info_a map_a
  /\ exists d1 d2 d,
       load_selection fs_a "a.sio" 28 3 (ChanList [1; 0]) None
       = Ok (set_data info_a d1)
       /\ load_selection fs_a "a.sio" (28 + 3) 5 (ChanList [1; 0]) None
          = Ok (set_data info_a d2)
       /\ load_selection fs_a "a.sio" 28 (3 + 5) (ChanList [1; 0]) None
          = Ok (set_data info_a d)
       /\ elems d = elems d1 ++ elems d2.
Proof.
  assert (Hv : valid_sio fs_a "a.sio" None info_a map_a).
  { split; [split; vm_compute; reflexivity|].
    repeat split; cbn [mm_records mm_samples map_a]; try lia.
    - vm_compute. lia.
    - vm_compute. discriminate. }
  split; [exact Hv|].
  apply (@adjacent_windows_compose fs_a "a.sio" None info_a map_a 28 3 5
           (ChanList [1; 0]) Hv eq_refl); try lia.
  vm_compute. discriminate.
Defined.

(** X6. The shape of a window of [n >= 1] samples of [k] channels on a valid
    file, after [np.squeeze]: [[n; k]] when both are at least two; the
    channel axis is dropped for one channel, and so is the time axis for one
    sample, which leaves a 0-d array for one sample of one channel. *)
Theorem window_shape_after_squeeze (fs : filesystem) (name : string)
    (cn : option (list string)) (fi : FileInfo) (m : memmap)
    (sampleStart numSamples : Z) (channels : channel_sel) :
  valid_sio fs name cn fi m ->
  valid_channels fi channels = true ->
  0 <= sampleStart -> 1 <= numSamples ->
  sampleStart + numSamples <= samplesPerChannel fi ->
  let k := length (selected_channels fi channels) in
  let n := Z.to_nat numSamples in
  exists d,
    load_selection fs name sampleStart numSamples channels cn
    = Ok (set_data fi d)
    /\ (1 <= k)%nat
    /\ ((2 <= n)%nat -> (2 <= k)%nat -> shape d = [n; k])
    /\ ((2 <= n)%nat -> k = 1%nat -> shape d = [n])
    /\ (n = 1%nat -> (2 <= k)%nat -> shape d = [k])
    /\ (n = 1%nat -> k = 1%nat -> shape d = []).
Proof.
  intros (Hp & HR & HS & Hspc) Hv Hs Hn Hsn k n.
  pose proof (parsed_coherent Hp) as Hcoh.
  rewrite (load_selection_parsed _ _ _ Hp).
  rewrite (loadFromMap_window _ Hcoh ltac:(lia) Hv) by lia.
  eexists. split; [reflexivity|].
  rewrite squeeze_window_shape. fold k n. unfold squeezed. cbn [filter].
  split.
  - subst k. unfold selected_channels, valid_channels in *.
    destruct Hcoh as (_ & Hc0 & _).
    destruct (any_negative channels).
    + rewrite length_seq. lia.
    + cbn [orb] in Hv. apply andb_true_iff in Hv. destruct Hv as [_ Hne].
      rewrite length_map.
      destruct channels as [c|[|c l]];
        [cbn; lia | discriminate Hne | cbn; lia].
  - repeat split; intros Hn' Hk'.
    + destruct (n =? 1)%nat eqn:En; [apply Nat.eqb_eq in En; lia|].
      destruct (k =? 1)%nat eqn:Ek; [apply Nat.eqb_eq in Ek; lia|].
      reflexivity.
    + destruct (n =? 1)%nat eqn:En; [apply Nat.eqb_eq in En; lia|].
      rewrite Hk'. reflexivity.
    + rewrite Hn'. cbn [Nat.eqb negb].
      destruct (k =? 1)%nat eqn:Ek; [apply Nat.eqb_eq in Ek; lia|].
      reflexivity.
    + rewrite Hn', Hk'. reflexivity.
Qed.

Lemma window_shape_after_squeeze_witness :
  valid_sio fs_a "a.sio" None info_a map_a
  /\ exists d,
       load_selection fs_a "a.sio" 30 1 (ChanList [1; 0]) None
       = Ok (set_data info_a d)
       /\ shape d = [2]%nat.
Proof.
  assert (Hv : valid_sio fs_a "a.sio" None info_a map_a).
  { split; [split; vm_compute; reflexivity|].
    repeat split; cbn [mm_records mm_samples map_a]; try lia.
    - vm_compute. lia.
    - vm_compute. discriminate. }
  split; [exact Hv|].
  destruct (@window_shape_after_squeeze fs_a "a.sio" None info_a map_a 30 1
              (ChanList [1; 0]) Hv eq_refl)
    as (d & Hd & _ & _ & _ & Hone & _).
  - lia.
  - lia.
  - vm_compute. discriminate.
  - exists d. split; [exact Hd|]. apply Hone; cbn; lia.
Defined.

(** X7. A file that parses and maps but holds no record per channel cannot be
    loaded in full: the slice of records is empty and [np.concatenate]
    raises. *)
Theorem full_load_without_records (fs : filesystem) (name : string)
    (cn : option (list string)) (fi : FileInfo) (m : memmap)
    (sampleStart numSamples : Z) (channels : channel_sel) :
  parsed fs name cn fi m ->
  mm_samples m <> 1%nat ->
  mm_records m = 0%nat ->
  valid_channels fi channels = true ->
  sampleStart < 0 ->
  load_selection fs name sampleStart numSamples channels cn = Err no_arrays.
Proof.
  intros Hp HS HR Hv Hs.
  rewrite (load_selection_parsed _ _ _ Hp).
  rewrite (loadFromMap_full _ _ (parsed_coherent Hp) HS Hv Hs).
  now rewrite HR.
Qed.

Lemma full_load_without_records_witness :
  parsed fs_header_only "h.sio" None info_h map_h
  /\ load_allChannels fs_header_only "h.sio" None = Err no_arrays.
Proof.
  assert (Hp : parsed fs_header_only "h.sio" None info_h map_h)
    by (split; vm_compute; reflexivity).
  split; [exact Hp|].
  apply (@full_load_without_records fs_header_only "h.sio" None info_h map_h
           (-1) 0 (ChanInt (-1)) Hp).
  - cbn. discriminate.
  - reflexivity.
  - reflexivity.
  - lia.
Defined.

(** ** The memory map *)

Lemma scalar_size_pos (d : dtype) : (0 < scalar_size d)%nat.
Proof. unfold scalar_size. destruct (kind (base d)); cbn; lia. Qed.

Lemma element_index_bound (R C S t c s : nat) :
  (t < R)%nat -> (c < C)%nat -> (s < S)%nat ->
  ((t * C + c) * S + s + 1 <= R * C * S)%nat.
Proof.
  intros Ht Hc Hs.
  assert (H1 : (t * C + c + 1 <= R * C)%nat) by nia.
  assert (H2 : ((t * C + c) * S + S <= R * C * S)%nat) by nia.
  lia.
Qed.

Lemma element_index_inj (C S t c s t' c' s' : nat) :
  (c < C)%nat -> (c' < C)%nat -> (s < S)%nat -> (s' < S)%nat ->
  ((t * C + c) * S + s = (t' * C + c') * S + s')%nat ->
  t = t' /\ c = c' /\ s = s'.
Proof.
  intros Hc Hc' Hs Hs' H.
  assert (Hrec : (t * C + c = t' * C + c')%nat).
  { destruct (Nat.lt_trichotomy (t * C + c) (t' * C + c')) as [L|[E|L]];
      [exfalso; nia | exact E | exfalso; nia]. }
  assert (Ht : t = t').
  { destruct (Nat.lt_trichotomy t t') as [L|[E|L]];
      [exfalso; nia | exact E | exfalso; nia]. }
  subst t'. repeat split; nia.
Qed.

(** X8. Every element the map exposes lies wholly inside the file, after the
    offset: reading it yields exactly as many bytes as the sample type has. *)
Theorem mapped_samples_inside_file (fs : filesystem) (fi : FileInfo)
    (m : memmap) (t c s : nat) :
  createSIOMap fs fi = Ok m ->
  (t < mm_records m)%nat -> (c < mm_channels m)%nat -> (s < mm_samples m)%nat ->
  (mm_offset m <= mm_position m t c s)%nat
  /\ (mm_position m t c s + scalar_size (mm_dtype m) <= length (mm_file m))%nat
  /\ length (mm_sample m t c s) = scalar_size (mm_dtype m).
Proof.
  intros Hm Ht Hc Hs.
  destruct (createSIOMap_inv _ _ Hm) as (file & _ & _ & _ & _ & _ & Hlen & Heq).
  assert (Hfile : mm_file m = file) by (rewrite Heq; reflexivity).
  pose proof (element_index_bound Ht Hc Hs) as Hidx.
  assert (Hin : (mm_position m t c s + scalar_size (mm_dtype m)
                 <= length (mm_file m))%nat).
  { rewrite Hfile. unfold mm_position. unfold itemsize in Hlen.
    fold (mm_samples m) in Hlen.
    set (sz := scalar_size (mm_dtype m)) in *.
    set (idx := ((t * mm_channels m + c) * mm_samples m + s)%nat) in *.
    assert ((idx + 1) * sz <= mm_records m * mm_channels m * mm_samples m * sz)%nat
      by (apply Nat.mul_le_mono_r; exact Hidx).
    lia. }
  split; [unfold mm_position; lia|]. split; [exact Hin|].
  unfold mm_sample. rewrite length_firstn, length_skipn. lia.
Qed.

Lemma mapped_samples_inside_file_witness :
  createSIOMap fs_a info_a = Ok map_a
  /\ (mm_position map_a 1 1 31 + scalar_size (mm_dtype map_a)
      <= length (mm_file map_a))%nat
  /\ length (mm_sample map_a 1 1 31) = scalar_size (mm_dtype map_a).
Proof.
  assert (Hm : createSIOMap fs_a info_a = Ok map_a) by (vm_compute; reflexivity).
  split; [exact Hm|].
  apply (@mapped_samples_inside_file fs_a info_a map_a 1 1 31 Hm); cbn; lia.
Defined.

(** X9. Two different elements of a map never share a byte: records follow one
    another channel by channel, and samples inside a record. *)
Theorem mapped_samples_disjoint (m : memmap) (t c s t' c' s' : nat) :
  (c < mm_channels m)%nat -> (c' < mm_channels m)%nat ->
  (s < mm_samples m)%nat -> (s' < mm_samples m)%nat ->
  (t, c, s) <> (t', c', s') ->
  (mm_position m t c s + scalar_size (mm_dtype m) <= mm_position m t' c' s')%nat
  \/ (mm_position m t' c' s' + scalar_size (mm_dtype m) <= mm_position m t c s)%nat.
Proof.
  intros Hc Hc' Hs Hs' Hne. unfold mm_position.
  pose proof (scalar_size_pos (mm_dtype m)) as Hsz.
  set (sz := scalar_size (mm_dtype m)) in *.
  set (i := ((t * mm_channels m + c) * mm_samples m + s)%nat).
  set (i' := ((t' * mm_channels m + c') * mm_samples m + s')%nat).
  destruct (Nat.lt_trichotomy i i') as [L|[E|L]].
  - left. assert ((i + 1) * sz <= i' * sz)%nat by (apply Nat.mul_le_mono_r; lia).
    lia.
  - exfalso. apply Hne.
    destruct (element_index_inj _ _ Hc Hc' Hs Hs' E) as (-> & -> & ->).
    reflexivity.
  - right. assert ((i' + 1) * sz <= i * sz)%nat by (apply Nat.mul_le_mono_r; lia).
    lia.
Qed.

Lemma mapped_samples_disjoint_witness :
  (mm_position map_a 0 1 31 + scalar_size (mm_dtype map_a)
   <= mm_position map_a 1 0 0)%nat
  \/ (mm_position map_a 1 0 0 + scalar_size (mm_dtype map_a)
      <= mm_position map_a 0 1 31)%nat.
Proof.
  apply (@mapped_samples_disjoint map_a 0 1 31 1 0 0); cbn; try lia.
  discriminate.
Defined.

(** ** Byte order *)

Lemma byte_val_range (b : byte) : 0 <= byte_val b < 256.
Proof.
  unfold byte_val. pose proof (Byte.to_N_bounded b). lia.
Qed.

Lemma byte_of_Z_low (b : byte) (r : Z) : byte_of_Z (byte_val b + 256 * r) = b.
Proof.
  unfold byte_of_Z.
  replace ((byte_val b + 256 * r) mod 256) with (byte_val b).
  - unfold byte_val. rewrite N2Z.id, Byte.of_to_N. reflexivity.
  - rewrite (Z.mul_comm 256 r), Z.mod_add by lia.
    symmetry. apply Z.mod_small, byte_val_range.
Qed.

Lemma shiftr_8_low (v r : Z) : 0 <= v < 256 -> Z.shiftr (v + 256 * r) 8 = r.
Proof.
  intros Hv. rewrite Z.shiftr_div_pow2 by lia.
  change (2 ^ 8) with 256.
  rewrite (Z.mul_comm 256 r), Z.div_add by lia.
  rewrite Z.div_small by assumption. lia.
Qed.

Lemma to_signed32_mod (u : Z) :
  0 <= u < 2 ^ 32 -> to_signed32 u mod 2 ^ 32 = u.
Proof.
  intros Hu. unfold to_signed32. destruct (u <? 2 ^ 31).
  - now apply Z.mod_small.
  - replace (u - 2 ^ 32) with (u + (-1) * 2 ^ 32) by lia.
    rewrite Z.mod_add by lia. now apply Z.mod_small.
Qed.

(** The four bytes of a decoded word are the bytes it was decoded from. *)
Lemma i4_bytes_le_i4 (b0 b1 b2 b3 : byte) :
  i4_bytes (le_i4 [b0; b1; b2; b3]) = [b0; b1; b2; b3].
Proof.
  pose proof (byte_val_range b0). pose proof (byte_val_range b1).
  pose proof (byte_val_range b2). pose proof (byte_val_range b3).
  unfold i4_bytes, le_i4. rewrite to_signed32_mod by (cbn [le_unsigned]; lia).
  cbn [le_unsigned]. cbv zeta.
  replace (Z.shiftr (byte_val b0 + 256 * (byte_val b1 + 256 * (byte_val b2 + 256 * (byte_val b3 + 256 * 0)))) 16)
    with (Z.shiftr (Z.shiftr (byte_val b0 + 256 * (byte_val b1 + 256 * (byte_val b2 + 256 * (byte_val b3 + 256 * 0)))) 8) 8)
    by (rewrite Z.shiftr_shiftr by lia; reflexivity).
  replace (Z.shiftr (byte_val b0 + 256 * (byte_val b1 + 256 * (byte_val b2 + 256 * (byte_val b3 + 256 * 0)))) 24)
    with (Z.shiftr (Z.shiftr (Z.shiftr (byte_val b0 + 256 * (byte_val b1 + 256 * (byte_val b2 + 256 * (byte_val b3 + 256 * 0)))) 8) 8) 8)
    by (rewrite !Z.shiftr_shiftr by lia; reflexivity).
  rewrite !shiftr_8_low by assumption.
  now rewrite !byte_of_Z_low.
Qed.

(** Swapping a decoded word is decoding the reversed bytes. *)
Lemma byteswap_le_i4 (w : list byte) :
  length w = 4%nat -> byteswap (le_i4 w) = le_i4 (rev w).
Proof.
  intros H. do 4 (destruct w as [|? w]; [discriminate H|]).
  destruct w; [|discriminate H].
  unfold byteswap. now rewrite i4_bytes_le_i4.
Qed.

Lemma swap_header_words_spec (file : list byte) :
  (32 <= length file)%nat ->
  raw_header (swap_header_words file) = map byteswap (raw_header file)
  /\ map byteswap (raw_header (swap_header_words file)) = raw_header file
  /\ skipn 32 (swap_header_words file) = skipn 32 file
  /\ skipn 56 (swap_header_words file) = skipn 56 file
  /\ length (swap_header_words file) = length file.
Proof.
  intros Hlen.
  do 32 (destruct file as [|? file]; [cbn [length] in Hlen; lia|]).
  unfold swap_header_words, raw_header.
  cbn [chunks firstn skipn flat_map rev app map length].
  rewrite !byteswap_le_i4 by reflexivity.
  cbn [rev app]. repeat split.
Qed.

(** X10. The same header written in the other byte order parses to the same
    fields: if a file is read as little-endian, the file whose eight header
    words are byte-reversed is read as big-endian, and the two results differ
    in the byte order of the record datatype only. *)
Theorem byte_swapped_header_same_fields (fs fs' : filesystem) (name : string)
    (cn : option (list string)) (file : list byte) (fi : FileInfo) :
  fs name = Some file ->
  fs' name = Some (swap_header_words file) ->
  load_header fs name cn = Ok fi ->
  bigEndian (base (recordType fi)) = false ->
  exists fi',
    load_header fs' name cn = Ok fi'
    /\ header_fields fi' = header_fields fi
    /\ readName fi' = readName fi
    /\ comment fi' = comment fi
    /\ channelName fi' = channelName fi
    /\ kind (base (recordType fi')) = kind (base (recordType fi))
    /\ subCount (recordType fi') = subCount (recordType fi)
    /\ bigEndian (base (recordType fi')) = true.
Proof.
  intros Hfs Hfs' Hload Hle.
  destruct (load_header_inv _ _ _ Hload)
    as (file0 & be & dt & Hfs0 & Hlen & Hbe & Hdt & Hq & ->).
  assert (file0 = file) by congruence. subst file0.
  assert (be = false).
  { destruct (data_type_of_inv _ Hdt) as [[_ ->]|[_ ->]];
      destruct be; [discriminate Hle|reflexivity|discriminate Hle|reflexivity]. }
  subst be.
  assert (Hcheck : nth 7 (raw_header file) 0 = 32677).
  { destruct (detect_big_endian_cases (nth 7 (raw_header file) 0))
      as [[Hc _]|[(_ & _ & Hd)|(_ & _ & Hd)]]; [exact Hc|congruence|congruence]. }
  destruct (@swap_header_words_spec file Hlen) as (Hraw & Hraw' & Hs32 & Hs56 & Hlen').
  assert (Hcheck' : nth 7 (raw_header (swap_header_words file)) 0
                    = byteswap 32677).
  { rewrite Hraw, map_byteswap_eight by reflexivity. cbn [nth].
    now rewrite Hcheck. }
  assert (Hof : forall dt',
            header_of (swap_header_words file) name cn true dt'
            = {| fid := fid (header_of file name cn false dt);
                 numRecords := numRecords (header_of file name cn false dt);
                 recordLength := recordLength (header_of file name cn false dt);
                 numChannels := numChannels (header_of file name cn false dt);
                 bytesPerPoint := bytesPerPoint (header_of file name cn false dt);
                 isReal := isReal (header_of file name cn false dt);
                 samplesPerChannel := samplesPerChannel (header_of file name cn false dt);
                 endianCheck := endianCheck (header_of file name cn false dt);
                 fileName := name;
                 readName := readName (header_of file name cn false dt);
                 comment := comment (header_of file name cn false dt);
                 channelName := channelName (header_of file name cn false dt);
                 recordType :=
                   {| base := newbyteorder dt';
                      subCount := subCount (recordType (header_of file name cn false dt)) |};
                 data := None |}).
  { intros dt'. unfold header_of. rewrite Hraw', Hs32, Hs56. reflexivity. }
  rewrite (load_header_unfold fs' name cn Hfs') by lia.
  rewrite Hcheck'. change (detect_big_endian (byteswap 32677)) with (Ok true).
  cbn [bind]. rewrite (Hof f4_le). cbn [bytesPerPoint].
  rewrite Hdt. cbn [bind]. rewrite (Hof dt). cbn [recordLength bytesPerPoint].
  destruct (_ <? 0) eqn:E; [apply Z.ltb_lt in E; lia|].
  eexists. split; [reflexivity|]. repeat split.
  cbn [recordType base newbyteorder bigEndian].
  destruct (data_type_of_inv _ Hdt) as [[_ ->]|[_ ->]]; reflexivity.
Qed.

Lemma byte_swapped_header_same_fields_witness :
  fs_a "a.sio"%string = Some file_a
  /\ exists fi',
       load_header (single_file "a.sio" (swap_header_words file_a)) "a.sio" None
       = Ok fi'
       /\ header_fields fi' = header_fields info_a
       /\ bigEndian (base (recordType fi')) = true.
Proof.
  split; [reflexivity|].
  destruct (@byte_swapped_header_same_fields fs_a
              (single_file "a.sio" (swap_header_words file_a)) "a.sio" None
              file_a info_a eq_refl eq_refl)
    as (fi' & Hl & Hf & _ & _ & _ & _ & _ & Hb).
  - vm_compute. reflexivity.
  - reflexivity.
  - exists fi'. split; [exact Hl|]. split; [exact Hf|exact Hb].
Defined.

(** ** The header parser *)

Lemma header_of_firstn (file : list byte) (name : string)
    (cn : option (list string)) (be : bool) (dt : scalar_dtype) :
  header_of (firstn 128 file) name cn be dt = header_of file name cn be dt.
Proof.
  assert (Hraw : raw_header (firstn 128 file) = raw_header file).
  { apply raw_header_firstn. rewrite firstn_firstn. reflexivity. }
  assert (Hname : firstn 24 (skipn 32 (firstn 128 file))
                  = firstn 24 (skipn 32 file)).
  { rewrite skipn_firstn_comm, firstn_firstn. reflexivity. }
  assert (Hcom : firstn 72 (skipn 56 (firstn 128 file))
                 = firstn 72 (skipn 56 file)).
  { rewrite skipn_firstn_comm, firstn_firstn. reflexivity. }
  unfold header_of. rewrite Hraw, Hname, Hcom. reflexivity.
Qed.

(** X11. [load_header] looks at the first 128 bytes of the file and at nothing
    else: two files that agree there give the same result, error or
    header. *)
Theorem header_decided_by_first_128_bytes (fs fs' : filesystem) (name : string)
    (cn : option (list string)) (file file' : list byte) :
  fs name = Some file ->
  fs' name = Some file' ->
  firstn 128 file' = firstn 128 file ->
  load_header fs' name cn = load_header fs name cn.
Proof.
  intros Hfs Hfs' Heq.
  assert (Hmin : Nat.min 128 (length file') = Nat.min 128 (length file)).
  { rewrite <- !length_firstn. now rewrite Heq. }
  destruct (Nat.lt_ge_cases (length file) 32) as [Hlt|Hge].
  - rewrite (load_header_short fs name cn Hfs Hlt).
    apply (load_header_short fs' name cn Hfs'). lia.
  - assert (Hge' : (32 <= length file')%nat) by lia.
    rewrite (load_header_unfold fs name cn Hfs Hge).
    rewrite (load_header_unfold fs' name cn Hfs' Hge').
    assert (Hraw : raw_header file' = raw_header file).
    { apply raw_header_firstn.
      change 32%nat with (Nat.min 32 128).
      rewrite <- !firstn_firstn. now rewrite Heq. }
    rewrite Hraw.
    destruct (detect_big_endian _) as [be|e]; [|reflexivity]. cbn [bind].
    assert (Hof : forall dt, header_of file' name cn be dt
                             = header_of file name cn be dt).
    { intros dt. rewrite <- (header_of_firstn file'), Heq.
      apply header_of_firstn. }
    rewrite Hof. destruct (data_type_of _) as [dt|e]; [|reflexivity].
    cbn [bind]. now rewrite Hof.
Qed.

Lemma header_decided_by_first_128_bytes_witness :
  firstn 128 (firstn 128 file_a ++ repeat xff 40) = firstn 128 file_a
  /\ load_header (single_file "a.sio" (firstn 128 file_a ++ repeat xff 40))
       "a.sio" None
     = load_header fs_a "a.sio" None.
Proof.
  split; [vm_compute; reflexivity|].
  apply (@header_decided_by_first_128_bytes fs_a
           (single_file "a.sio" (firstn 128 file_a ++ repeat xff 40))
           "a.sio" None file_a (firstn 128 file_a ++ repeat xff 40)).
  - reflexivity.
  - reflexivity.
  - vm_compute. reflexivity.
Defined.

(** X12. [load_header] succeeds exactly when the file exists, holds the 32 bytes
    of the header integers, carries the check value 32677 in one of the two
    byte orders, and announces, read in that order, 2 or 4 bytes per sample
    and a record length whose quotient by them is not negative. *)
Theorem load_header_succeeds_iff (fs : filesystem) (name : string)
    (cn : option (list string)) :
  (exists fi, load_header fs name cn = Ok fi)
  <-> exists file be,
        fs name = Some file
        /\ (32 <= length file)%nat
        /\ detect_big_endian (nth 7 (raw_header file) 0) = Ok be
        /\ let h := if be then map byteswap (raw_header file)
                    else raw_header file in
           (nth 4 h 0 = 4 \/ nth 4 h 0 = 2)
           /\ 0 <= Z.quot (nth 2 h 0) (nth 4 h 0).
Proof.
  split.
  - intros [fi H].
    destruct (load_header_inv _ _ _ H)
      as (file & be & dt & Hfs & Hlen & Hbe & Hdt & Hq & ->).
    exists file, be. repeat split; auto.
    destruct (data_type_of_inv _ Hdt) as [[Hb _]|[Hb _]]; [left|right]; exact Hb.
  - intros (file & be & Hfs & Hlen & Hbe & Hbpp & Hq).
    rewrite (load_header_unfold fs name cn Hfs Hlen), Hbe. cbn [bind].
    unfold header_of at 1. cbn [bytesPerPoint].
    assert (Hdt : exists dt,
              data_type_of (nth 4 (if be then map byteswap (raw_header file)
                                   else raw_header file) 0) = Ok dt).
    { destruct Hbpp as [-> | ->]; eexists; reflexivity. }
    destruct Hdt as [dt Hdt]. rewrite Hdt. cbn [bind].
    unfold header_of at 1 2. cbn [recordLength bytesPerPoint].
    apply Z.ltb_ge in Hq. rewrite Hq. eauto.
Qed.

Lemma loadFromMap_data_congr (m : memmap) (fi fi' : FileInfo)
    (sampleStart numSamples : Z) (channels : channel_sel) (d : ndarray) :
  numRecords fi' = numRecords fi ->
  numChannels fi' = numChannels fi ->
  recordLength fi' = recordLength fi ->
  bytesPerPoint fi' = bytesPerPoint fi ->
  samplesPerChannel fi' = samplesPerChannel fi ->
  loadFromMap m fi sampleStart numSamples channels = Ok (set_data fi d) ->
  loadFromMap m fi' sampleStart numSamples channels = Ok (set_data fi' d).
Proof.
  intros H1 H2 H3 H4 H5.
  unfold loadFromMap, time_indices, resolve_channels.
  rewrite H1, H2, H3, H4, H5. intros H.
  do 3 (destruct_bind H; [|discriminate H]; cbn [bind]).
  destruct x1 as [[[rs re] a] b].
  do 3 (destruct_bind H; [|discriminate H]; cbn [bind]).
  injection H as <-. reflexivity.
Qed.

(** X13. The channel names are stored and nothing more: [load_header] does not
    compare their number with [numChannels], and a read with other names, or
    with none, succeeds as well and returns the same header integers, the
    same record datatype and the same array. *)
Theorem channel_names_only_label (fs : filesystem) (name : string)
    (cn cn' : option (list string)) (sampleStart numSamples : Z)
    (channels : channel_sel) (r : FileInfo) :
  load_selection fs name sampleStart numSamples channels cn = Ok r ->
  channelName r = default_names cn (numChannels r)
  /\ exists r',
       load_selection fs name sampleStart numSamples channels cn' = Ok r'
       /\ channelName r' = default_names cn' (numChannels r)
       /\ header_fields r' = header_fields r
       /\ recordType r' = recordType r
       /\ data r' = data r.
Proof.
  unfold load_selection. intros H.
  destruct_bind H; [|discriminate H].
  destruct_bind H; [|discriminate H].
  destruct (loadFromMap_ok _ _ _ _ _ H) as [d ->].
  destruct (load_header_inv _ _ _ E)
    as (file & be & dt & Hfs & Hlen & Hbe & Hdt & Hq & ->).
  split; [reflexivity|].
  assert (Hh : load_header fs name cn' = Ok (header_of file name cn' be dt)).
  { rewrite (load_header_unfold fs name cn' Hfs Hlen), Hbe. cbn [bind].
    change (bytesPerPoint (header_of file name cn' be f4_le))
      with (bytesPerPoint (header_of file name cn be dt)).
    rewrite Hdt. cbn [bind].
    change (recordLength (header_of file name cn' be dt))
      with (recordLength (header_of file name cn be dt)).
    change (bytesPerPoint (header_of file name cn' be dt))
      with (bytesPerPoint (header_of file name cn be dt)).
    apply Z.ltb_ge in Hq. now rewrite Hq. }
  rewrite Hh. cbn [bind].
  change (createSIOMap fs (header_of file name cn' be dt))
    with (createSIOMap fs (header_of file name cn be dt)).
  rewrite E0. cbn [bind].
  rewrite (@loadFromMap_data_congr x0 (header_of file name cn be dt)
             (header_of file name cn' be dt) sampleStart numSamples channels d
             eq_refl eq_refl eq_refl eq_refl eq_refl H).
  eexists. split; [reflexivity|]. repeat split.
Qed.

Lemma channel_names_only_label_witness :
  exists r r',
    load_selection fs_a "a.sio" 30 4 (ChanInt 1) (Some ["only one name"%string])
    = Ok r
    /\ channelName r = UserNames ["only one name"%string]
    /\ load_selection fs_a "a.sio" 30 4 (ChanInt 1) None = Ok r'
    /\ channelName r' = IndexNames [0; 1]
    /\ data r' = data r.
Proof.
  assert (Hl : exists r,
            load_selection fs_a "a.sio" 30 4 (ChanInt 1)
              (Some ["only one name"%string]) = Ok r)
    by (eexists; vm_compute; reflexivity).
  destruct Hl as [r Hr].
  destruct (@channel_names_only_label fs_a "a.sio"
              (Some ["only one name"%string]) None 30 4 (ChanInt 1) r Hr)
    as (Hn & r' & Hr' & Hn' & _ & _ & Hd).
  exists r, r'. split; [exact Hr|]. split; [exact Hn|].
  split; [exact Hr'|]. split; [|exact Hd].
  rewrite Hn'. vm_compute in Hr. injection Hr as <-. reflexivity.
Defined.

(** ** The time indices *)

(** X14. For a request inside the bounds the four indices point at the window:
    the start record and offset are the quotient and remainder of
    [sampleStart], the end offset is the start offset plus [numSamples], and
    the records [recStartI .. recEndI) hold the whole window and end less
    than one record and a sample after it. *)
Theorem time_indices_cover (fi : FileInfo) (R S sampleStart numSamples : Z)
    (rs re a b : Z) :
  0 < S -> 0 <= sampleStart -> 0 <= numSamples ->
  time_indices fi R S sampleStart numSamples = Ok (rs, re, a, b) ->
  sampleStart + numSamples <= samplesPerChannel fi
  /\ rs * S + a = sampleStart
  /\ 0 <= a < S
  /\ b = a + numSamples
  /\ 0 <= rs < re
  /\ b < (re - rs) * S
  /\ (re - rs - 1) * S <= b.
Proof.
  intros HS Hs Hn. unfold time_indices.
  destruct (sampleStart <? 0) eqn:E1; [apply Z.ltb_lt in E1; lia|].
  destruct (_ >? _) eqn:E2; [discriminate|].
  destruct (S =? 0) eqn:E3; [discriminate|].
  rewrite Z.gtb_ltb in E2. apply Z.ltb_ge in E2.
  rewrite Z.quot_div_nonneg by lia.
  intros H. injection H as <- <- <- <-.
  pose proof (Z.div_mod sampleStart S ltac:(lia)) as Hdm.
  pose proof (Z.mod_pos_bound sampleStart S HS) as Hmod.
  pose proof (Z.div_mod (sampleStart + numSamples) S ltac:(lia)) as Hdm'.
  pose proof (Z.mod_pos_bound (sampleStart + numSamples) S HS) as Hmod'.
  set (q := sampleStart / S) in *. set (r := sampleStart mod S) in *.
  set (q' := (sampleStart + numSamples) / S) in *.
  set (r' := (sampleStart + numSamples) mod S) in *.
  assert (0 <= q) by nia. assert (q <= q') by nia.
  repeat split; try lia; nia.
Qed.

Lemma time_indices_cover_witness :
  time_indices info_a 2 32 30 4 = Ok (0, 2, 30, 34)
  /\ 0 * 32 + 30 = 30 /\ 34 < (2 - 0) * 32 /\ (2 - 0 - 1) * 32 <= 34.
Proof.
  split; [reflexivity|].
  pose proof (@time_indices_cover info_a 2 32 30 4 0 2 30 34
                ltac:(lia) ltac:(lia) ltac:(lia) eq_refl)
    as (_ & H1 & _ & _ & _ & H2 & H3).
  split; [exact H1|]. split; [exact H2|exact H3].
Defined.

(** ** Files the map refuses *)

(** X15. A header that announces no channel parses, but nothing can be read from
    the file: the quotient [numRecords / numChannels] is infinite or
    undefined and [np.int] refuses it, in [createSIOMap], before the file is
    mapped. *)
Theorem zero_channels_cannot_be_mapped (fs : filesystem) (name : string)
    (cn : option (list string)) (fi : FileInfo) (sampleStart numSamples : Z)
    (channels : channel_sel) :
  load_header fs name cn = Ok fi ->
  numChannels fi = 0 ->
  load_selection fs name sampleStart numSamples channels cn
  = if numRecords fi =? 0
    then Err (ValueError "cannot convert float NaN to integer")
    else Err (OverflowError "cannot convert float infinity to integer").
Proof.
  intros Hh Hc. unfold load_selection. rewrite Hh. cbn [bind].
  unfold createSIOMap, np_int_div. rewrite Hc. cbn [Z.eqb].
  destruct (numRecords fi =? 0); reflexivity.
Qed.

Lemma zero_channels_cannot_be_mapped_witness :
  (exists fi, load_header fs_no_channel "z.sio" None = Ok fi
              /\ numChannels fi = 0 /\ numRecords fi = 4)
  /\ load_allChannels fs_no_channel "z.sio" None
     = Err (OverflowError "cannot convert float infinity to integer").
Proof.
  assert (Hh : load_header fs_no_channel "z.sio" None
               = Ok (header_of file_no_channel "z.sio" None false f4_le))
    by (vm_compute; reflexivity).
  split; [eexists; split; [exact Hh|split; reflexivity]|].
  exact (@zero_channels_cannot_be_mapped fs_no_channel "z.sio" None _ (-1) 0
           (ChanInt (-1)) Hh eq_refl).
Defined.



(** ** Windows and the full range *)

Lemma concat_rows_slice {A : Type} (g : nat -> list A) (k a n T : nat) :
  (forall i, length (g i) = k) ->
  (a + n <= T)%nat ->
  firstn (n * k) (skipn (a * k) (concat (map g (seq 0 T))))
  = concat (map g (seq a n)).
Proof.
  intros Hg Hle.
  replace T with (a + (n + (T - a - n)))%nat by lia.
  rewrite !seq_app, !map_app, !concat_app. cbn [Nat.add].
  rewrite skipn_app, skipn_all2
    by (rewrite (length_concat_uniform g Hg); lia).
  rewrite (length_concat_uniform g Hg), Nat.sub_diag. cbn [skipn app].
  rewrite firstn_app, (length_concat_uniform g Hg), Nat.sub_diag.
  cbn [firstn]. rewrite app_nil_r.
  apply firstn_all2. rewrite (length_concat_uniform g Hg). lia.
Qed.

Lemma window_elems (m : memmap) (cs : list nat) (first count : nat) :
  elems (squeeze (window m cs first count))
  = concat (map (fun q => map (fun c => channel_sample m c q) cs)
                (seq first count)).
Proof.
  unfold squeeze, window. cbn [elems cells]. f_equal.
  symmetry. apply map_seq_from.
Qed.

(** X17. A window that stops before the final sample is a run of rows of the
    full-range read of the same channels: its elements are those of the
    full-range array from row [sampleStart] on, [numSamples] rows of them. *)
Theorem window_is_slice_of_full_range (fs : filesystem) (name : string)
    (cn : option (list string)) (fi : FileInfo) (m : memmap)
    (sampleStart numSamples : Z) (channels : channel_sel) :
  valid_sio fs name cn fi m ->
  valid_channels fi channels = true ->
  0 <= sampleStart -> 1 <= numSamples ->
  sampleStart + numSamples <= samplesPerChannel fi ->
  sampleStart + numSamples <= Z.of_nat (mm_records m * mm_samples m) - 1 ->
  let k := length (selected_channels fi channels) in
  exists dw df,
    load_selection fs name sampleStart numSamples channels cn
    = Ok (set_data fi dw)
    /\ load_selection fs name (-1) 0 channels cn = Ok (set_data fi df)
    /\ elems dw
       = firstn (Z.to_nat numSamples * k)
                (skipn (Z.to_nat sampleStart * k) (elems df)).
Proof.
  intros (Hp & HR & HS & Hspc) Hv Hs Hn Hsn Hlast k.
  pose proof (parsed_coherent Hp) as Hcoh.
  rewrite !(load_selection_parsed _ _ _ Hp).
  rewrite (loadFromMap_window _ Hcoh ltac:(lia) Hv) by lia.
  rewrite (loadFromMap_full _ _ Hcoh ltac:(lia) Hv) by lia.
  destruct (mm_records m =? 0)%nat eqn:E; [apply Nat.eqb_eq in E; lia|].
  do 2 eexists. split; [reflexivity|]. split; [reflexivity|].
  rewrite !window_elems. symmetry.
  apply concat_rows_slice.
  - intros i. apply length_map.
  - lia.
Qed.

Lemma window_is_slice_of_full_range_witness :
  valid_sio fs_a "a.sio" None info_a map_a
  /\ exists dw df,
       load_selection fs_a "a.sio" 30 4 (ChanList [1; 0]) None
       = Ok (set_data info_a dw)
       /\ load_selection fs_a "a.sio" (-1) 0 (ChanList [1; 0]) None
          = Ok (set_data info_a df)
       /\ elems dw = firstn (4 * 2) (skipn (30 * 2) (elems df)).
Proof.
  assert (Hv : valid_sio fs_a "a.sio" None info_a map_a).
  { split; [split; vm_compute; reflexivity|].
    repeat split; cbn [mm_records mm_samples map_a]; try lia.
    - vm_compute. lia.
    - vm_compute. discriminate. }
  split; [exact Hv|].
  apply (@window_is_slice_of_full_range fs_a "a.sio" None info_a map_a 30 4
           (ChanList [1; 0]) Hv eq_refl); try lia.
  - vm_compute. discriminate.
  - vm_compute. discriminate.
Defined.

(** X18. A header that announces more samples per channel than the records hold
    lets requests through that the file cannot serve.  A window that starts
    inside the records and runs past them is cut at the last record, without
    any error: fewer samples than requested come back.  A window that starts
    after the records fails in [np.concatenate], not at the bounds check. *)
Theorem overstated_length_truncates_silently (fs : filesystem) (name : string)
    (cn : option (list string)) (fi : FileInfo) (m : memmap)
    (sampleStart numSamples : Z) (channels : channel_sel) :
  parsed fs name cn fi m ->
  (2 <= mm_samples m)%nat ->
  valid_channels fi channels = true ->
  0 <= sampleStart -> 1 <= numSamples ->
  sampleStart + numSamples <= samplesPerChannel fi ->
  let held := Z.of_nat (mm_records m * mm_samples m) in
  held < sampleStart + numSamples ->
  (sampleStart < held ->
   load_selection fs name sampleStart numSamples channels cn
   = Ok (set_data fi (squeeze
          (window m (selected_channels fi channels) (Z.to_nat sampleStart)
             (Z.to_nat (held - sampleStart)))))
   /\ held - sampleStart < numSamples)
  /\ (held <= sampleStart ->
      load_selection fs name sampleStart numSamples channels cn = Err no_arrays).
Proof.
  intros Hp HS Hv Hs Hn Hsn held Hover.
  pose proof (parsed_coherent Hp) as Hcoh.
  rewrite (load_selection_parsed _ _ _ Hp).
  set (S := Z.of_nat (mm_samples m)). set (R := Z.of_nat (mm_records m)).
  assert (Hheld : held = R * S) by (subst held R S; lia).
  assert (HS0 : 0 < S) by (subst S; lia).
  pose proof (Z.div_mod sampleStart S ltac:(lia)) as Hdm.
  pose proof (Z.mod_pos_bound sampleStart S HS0) as Hmod.
  pose proof (Z.div_mod (sampleStart + numSamples) S ltac:(lia)) as Hdm'.
  pose proof (Z.mod_pos_bound (sampleStart + numSamples) S HS0) as Hmod'.
  set (q := sampleStart / S) in *. set (r := sampleStart mod S) in *.
  set (q' := (sampleStart + numSamples) / S) in *.
  set (r' := (sampleStart + numSamples) mod S) in *.
  assert (Hq0 : 0 <= q) by nia.
  assert (HR0 : 0 <= R) by (subst R; lia).
  assert (Hq'R : R <= q') by nia.
  rewrite (loadFromMap_eq (rs := q) (re := q' + 1) (a := r) (b := r + numSamples)
             _ _ _ Hcoh ltac:(lia) Hv)
    by (apply time_indices_inside; lia).
  cbv zeta.
  destruct (r + numSamples =? 0) eqn:E0; [apply Z.eqb_eq in E0; lia|].
  split.
  - intros Hin. split; [|lia].
    assert (HqR : q < R) by nia.
    rewrite (slice_bounds_clip (a := q) (b := q' + 1)) by (fold R; lia).
    cbn [fst snd]. fold R. rewrite Z.min_r by lia.
    set (nr := Z.to_nat (R - q)).
    assert (Hnr : Z.of_nat nr = R - q) by (subst nr; lia).
    destruct (nr =? 0)%nat eqn:E; [apply Nat.eqb_eq in E; lia|].
    assert (Hlen : Z.of_nat (nr * mm_samples m) = (R - q) * S)
      by (rewrite Nat2Z.inj_mul, Hnr; reflexivity).
    rewrite slice_bounds_clip by (rewrite ?Hlen; nia).
    cbn [fst snd]. rewrite Hlen, Z.min_r by nia.
    replace (Z.to_nat q * mm_samples m + Z.to_nat r)%nat
      with (Z.to_nat sampleStart).
    + replace ((R - q) * S - r) with (held - sampleStart) by lia.
      reflexivity.
    + apply Nat2Z.inj. rewrite Nat2Z.inj_add, Nat2Z.inj_mul, !Z2Nat.id by lia.
      fold S. lia.
  - intros Hout.
    assert (HqR : R <= q) by nia.
    unfold slice_bounds, clip_index. fold R. cbn [fst snd].
    destruct (q <? 0) eqn:Eq; [apply Z.ltb_lt in Eq; lia|].
    destruct (q' + 1 <? 0) eqn:Eq'; [apply Z.ltb_lt in Eq'; lia|].
    rewrite !Z.min_r by lia. rewrite Z.sub_diag. reflexivity.
Qed.

Lemma overstated_length_truncates_silently_witness :
  parsed fs_over "o.sio" None info_over map_over
  /\ samplesPerChannel info_over = 100
  /\ (exists d,
        load_selection fs_over "o.sio" 60 10 (ChanInt 0) None
        = Ok (set_data info_over d)
        /\ shape d = [4]%nat)
  /\ load_selection fs_over "o.sio" 70 10 (ChanInt 0) None = Err no_arrays.
Proof.
  assert (Hp : parsed fs_over "o.sio" None info_over map_over)
    by (split; vm_compute; reflexivity).
  split; [exact Hp|]. split; [reflexivity|].
  assert (H2 : (2 <= mm_samples map_over)%nat) by (cbn; lia).
  split.
  - assert (Hspc : 60 + 10 <= samplesPerChannel info_over)
      by (vm_compute; discriminate).
    assert (Hover : Z.of_nat (mm_records map_over * mm_samples map_over) < 60 + 10)
      by (vm_compute; reflexivity).
    pose proof (@overstated_length_truncates_silently fs_over "o.sio" None
                  info_over map_over 60 10 (ChanInt 0) Hp H2 eq_refl
                  ltac:(lia) ltac:(lia) Hspc Hover) as [Hin _].
    destruct Hin as [Hl _]; [vm_compute; reflexivity|].
    eexists. split; [exact Hl|reflexivity].
  - assert (Hspc : 70 + 10 <= samplesPerChannel info_over)
      by (vm_compute; discriminate).
    assert (Hover : Z.of_nat (mm_records map_over * mm_samples map_over) < 70 + 10)
      by (vm_compute; reflexivity).
    pose proof (@overstated_length_truncates_silently fs_over "o.sio" None
                  info_over map_over 70 10 (ChanInt 0) Hp H2 eq_refl
                  ltac:(lia) ltac:(lia) Hspc Hover) as [_ Hout].
    apply Hout. vm_compute. discriminate.
Defined.
